(** * create-project scaffolding tool (index.mjs): model and verified properties

    The program is a linear command-line scaffolder.  Its pure part is three
    string functions ([isValidPackageName], [toValidPackageName],
    [packageNameToDirName]); its effectful part copies a template tree,
    patches [package.json], optionally runs [npm install] and cleans up on
    failure.

    Strings are JavaScript strings: sequences of UTF-16 code units.
    The file system is a tree of directories and files; external services
    (prompt session, JSON codec, child process, I/O faults) are supplied by an
    environment record so that every function below can be evaluated. *)

From Stdlib Require Import NArith ZArith List Bool Ascii String Lia.
From stdpp Require Import base option list gmap.

Set Warnings "-register-all".

Open Scope N_scope.

(** ** JavaScript strings *)

Module JsString.

(** A UTF-16 code unit. *)
Definition char := N.

Definition jsstring := list char.

(** Literals: each 8-bit character of the Rocq string is one code unit. *)
Fixpoint js (s : string) : jsstring :=
  match s with
  | EmptyString => []
  | String a r => N_of_ascii a :: js r
  end.

Definition in_range (lo hi c : char) : bool := (lo <=? c) && (c <=? hi).

Definition is_lower (c : char) : bool := in_range 97 122 c.   (* a-z *)
Definition is_upper (c : char) : bool := in_range 65 90 c.    (* A-Z *)
Definition is_digit (c : char) : bool := in_range 48 57 c.    (* 0-9 *)

Definition ch_dash : char := 45.
Definition ch_dot : char := 46.
Definition ch_slash : char := 47.
Definition ch_star : char := 42.
Definition ch_at : char := 64.
Definition ch_underscore : char := 95.
Definition ch_tilde : char := 126.

Definition is_char (k c : char) : bool := c =? k.

(** ECMAScript WhiteSpace and LineTerminator code points: the set used by
    [String.prototype.trim] and by the regular-expression class [\s]. *)
Definition is_space (c : char) : bool :=
  in_range 9 13 c || is_char 32 c || is_char 160 c || is_char 5760 c
  || in_range 8192 8202 c || is_char 8232 c || is_char 8233 c
  || is_char 8239 c || is_char 8287 c || is_char 12288 c || is_char 65279 c.

Fixpoint drop_while (p : char -> bool) (s : jsstring) : jsstring :=
  match s with
  | [] => []
  | c :: r => if p c then drop_while p r else s
  end.

Fixpoint take_while (p : char -> bool) (s : jsstring) : jsstring :=
  match s with
  | [] => []
  | c :: r => if p c then c :: take_while p r else []
  end.

(** [s.trim()] *)
Definition trimStart (s : jsstring) : jsstring := drop_while is_space s.
Definition trimEnd (s : jsstring) : jsstring :=
  rev (drop_while is_space (rev s)).
Definition trim (s : jsstring) : jsstring := trimEnd (trimStart s).

(** [s.includes(c)] for a one-unit needle. *)
Definition includes (k : char) (s : jsstring) : bool := existsb (is_char k) s.

(** [s.split(c)] for a one-unit separator: the list of pieces between
    separators; a string without separator is a single piece. *)
Fixpoint split (k : char) (s : jsstring) : list jsstring :=
  match s with
  | [] => [[]]
  | c :: r =>
      if is_char k c then [] :: split k r
      else match split k r with
           | piece :: pieces => (c :: piece) :: pieces
           | [] => [[c]]
           end
  end.

(** [s.replace(/[class]+/g, "-")]: scanning left to right, every maximal run
    of units of the class is replaced by one dash.  [in_run] tells whether
    the previous unit belonged to the run that is being replaced. *)
Fixpoint replace_runs_from (p : char -> bool) (in_run : bool) (s : jsstring)
  : jsstring :=
  match s with
  | [] => []
  | c :: r =>
      if p c then
        if in_run then replace_runs_from p true r
        else ch_dash :: replace_runs_from p true r
      else c :: replace_runs_from p false r
  end.

Definition replace_runs (p : char -> bool) (s : jsstring) : jsstring :=
  replace_runs_from p false s.

(** [s.replace(/^[class]/, "")]: one leading unit of the class is removed. *)
Definition strip_leading (p : char -> bool) (s : jsstring) : jsstring :=
  match s with
  | c :: r => if p c then r else s
  | [] => []
  end.

(** [s.toLowerCase()].  ASCII units are mapped by the fixed rule A-Z -> a-z,
    whatever surrounds them.  The Unicode lower-case mapping of the other
    units (which may depend on the neighbouring text and may yield zero, one
    or several units) is the runtime's table [unicode_lower], given the text
    before the unit (nearest first), the unit and the text after it. *)
Definition unicode_table := jsstring -> char -> jsstring -> jsstring.

Definition ascii_lower (c : char) : char :=
  if is_upper c then c + 32 else c.

Fixpoint lower_from (ul : unicode_table) (before s : jsstring) : jsstring :=
  match s with
  | [] => []
  | c :: r =>
      (if c <? 128 then [ascii_lower c] else ul before c r)
        ++ lower_from ul (c :: before) r
  end.

Definition toLowerCase (ul : unicode_table) (s : jsstring) : jsstring :=
  lower_from ul [] s.

End JsString.

Import JsString.

(** ** Regular expressions, as far as the source uses them *)

Module Regex.

Inductive regex : Type :=
| Void                              (* matches nothing *)
| Eps                               (* matches the empty string *)
| Class (p : char -> bool)          (* one unit of a character class *)
| Seq (r1 r2 : regex)
| Alt (r1 r2 : regex)
| Star (r : regex).

Definition Lit (k : char) : regex := Class (is_char k).
Definition Opt (r : regex) : regex := Alt r Eps.       (* (?: r )? *)

(** The strings a regex matches as a whole. *)
Inductive Lang : regex -> jsstring -> Prop :=
| LEps : Lang Eps []
| LClass p c : p c = true -> Lang (Class p) [c]
| LSeq r1 r2 s1 s2 : Lang r1 s1 -> Lang r2 s2 -> Lang (Seq r1 r2) (s1 ++ s2)
| LAltL r1 r2 s : Lang r1 s -> Lang (Alt r1 r2) s
| LAltR r1 r2 s : Lang r2 s -> Lang (Alt r1 r2) s
| LStarNil r : Lang (Star r) []
| LStarApp r s1 s2 :
    Lang r s1 -> Lang (Star r) s2 -> Lang (Star r) (s1 ++ s2).

Fixpoint nullable (r : regex) : bool :=
  match r with
  | Void => false
  | Eps => true
  | Class _ => false
  | Seq r1 r2 => nullable r1 && nullable r2
  | Alt r1 r2 => nullable r1 || nullable r2
  | Star _ => true
  end.

(** Derivative of [r] by the unit [c]. *)
Fixpoint deriv (c : char) (r : regex) : regex :=
  match r with
  | Void => Void
  | Eps => Void
  | Class p => if p c then Eps else Void
  | Seq r1 r2 =>
      if nullable r1 then Alt (Seq (deriv c r1) r2) (deriv c r2)
      else Seq (deriv c r1) r2
  | Alt r1 r2 => Alt (deriv c r1) (deriv c r2)
  | Star r1 => Seq (deriv c r1) (Star r1)
  end.

(** [/^r$/.test(s)]: without the [m] flag the anchors are the two ends of
    the input, so the test is whole-string matching. *)
Fixpoint test (r : regex) (s : jsstring) : bool :=
  match s with
  | [] => nullable r
  | c :: s' => test (deriv c r) s'
  end.

End Regex.

Import Regex.

(** ** The name validator/normalizer (index.mjs, lines 24-46) *)

(** [[a-z0-9-*~]] *)
Definition scope_head (c : char) : bool :=
  is_lower c || is_digit c || is_char ch_dash c || is_char ch_star c
  || is_char ch_tilde c.

(** [[a-z0-9-*._~]] *)
Definition scope_tail (c : char) : bool :=
  is_lower c || is_digit c || is_char ch_dash c || is_char ch_star c
  || is_char ch_dot c || is_char ch_underscore c || is_char ch_tilde c.

(** [[a-z0-9-~]] *)
Definition name_head (c : char) : bool :=
  is_lower c || is_digit c || is_char ch_dash c || is_char ch_tilde c.

(** [[a-z0-9-._~]] *)
Definition name_tail (c : char) : bool :=
  is_lower c || is_digit c || is_char ch_dash c || is_char ch_dot c
  || is_char ch_underscore c || is_char ch_tilde c.

(** [(?:@[a-z0-9-*~][a-z0-9-*._~]*\/)?] *)
Definition scope_re : regex :=
  Opt (Seq (Lit ch_at)
        (Seq (Class scope_head) (Seq (Star (Class scope_tail)) (Lit ch_slash)))).

(** [[a-z0-9-~][a-z0-9-._~]*] *)
Definition name_re : regex := Seq (Class name_head) (Star (Class name_tail)).

(** [/^(?:@[a-z0-9-*~][a-z0-9-*._~]*\/)?[a-z0-9-~][a-z0-9-._~]*$/] *)
Definition package_name_re : regex := Seq scope_re name_re.

Definition isValidPackageName (projectName : jsstring) : bool :=
  test package_name_re projectName.

(** [[._]] *)
Definition dot_or_underscore (c : char) : bool :=
  is_char ch_dot c || is_char ch_underscore c.

(** [[^a-z0-9-~]] *)
Definition not_name_head (c : char) : bool := negb (name_head c).

Definition toValidPackageName (ul : unicode_table) (projectName : jsstring)
  : jsstring :=
  replace_runs not_name_head
    (strip_leading dot_or_underscore
       (replace_runs is_space
          (toLowerCase ul (trim projectName)))).

(** [packageName.split("/")[1]] is [undefined] when the split has fewer than
    two pieces; [None] stands for [undefined]. *)
Definition packageNameToDirName (packageName : jsstring) : option jsstring :=
  if includes ch_slash packageName
  then split ch_slash packageName !! 1%nat
  else Some packageName.

(** ** JSON values and JavaScript objects *)

Module Json.

Inductive json : Type :=
| JNull
| JBool (b : bool)
| JNum (bits : N)                          (* a double, by its bit pattern *)
| JStr (s : jsstring)
| JArr (items : list json)
| JObj (fields : list (jsstring * json)).  (* own properties, in key order *)

(** [obj[k]] on the own properties. *)
Fixpoint get_prop (k : jsstring) (fields : list (jsstring * json))
  : option json :=
  match fields with
  | [] => None
  | (k', v) :: rest => if decide (k' = k) then Some v else get_prop k rest
  end.

(** [obj[k] = v] for a key that is not an array index: an existing property
    keeps its place and takes the new value, a new one goes last. *)
Fixpoint set_prop (k : jsstring) (v : json) (fields : list (jsstring * json))
  : list (jsstring * json) :=
  match fields with
  | [] => [(k, v)]
  | (k', v') :: rest =>
      if decide (k' = k) then (k, v) :: rest
      else (k', v') :: set_prop k v rest
  end.

End Json.

Import Json.

(** ** The file system *)

Module Fs.

Definition path := list jsstring.

Inductive node : Type :=
| File (content : jsstring)
| Dir (entries : gmap jsstring node).

Fixpoint lookup_path (n : node) (p : path) : option node :=
  match p with
  | [] => Some n
  | s :: p' =>
      match n with
      | Dir es =>
          match es !! s with
          | Some child => lookup_path child p'
          | None => None
          end
      | File _ => None
      end
  end.

(** [fs.existsSync(p)] *)
Definition existsSync (root : node) (p : path) : bool :=
  match lookup_path root p with Some _ => true | None => false end.

Definition read_file (root : node) (p : path) : option jsstring :=
  match lookup_path root p with
  | Some (File c) => Some c
  | _ => None
  end.

(** Places [new] at [p].  A file on the way is an error; a missing parent
    directory is created when [mkdirs] is set and is an error otherwise. *)
Fixpoint put_path (mkdirs : bool) (n : node) (p : path) (new : node)
  : option node :=
  match p with
  | [] => Some new
  | s :: p' =>
      match n with
      | File _ => None
      | Dir es =>
          match es !! s with
          | Some child =>
              match put_path mkdirs child p' new with
              | Some child' => Some (Dir (<[s := child']> es))
              | None => None
              end
          | None =>
              if mkdirs || bool_decide (p' = []) then
                match put_path mkdirs (Dir ∅) p' new with
                | Some child' => Some (Dir (<[s := child']> es))
                | None => None
                end
              else None
          end
      end
  end.

(** [rm -rf p]: the entry and everything below it go; nothing happens when
    there is no such entry. *)
Fixpoint remove_path (n : node) (p : path) : node :=
  match p with
  | [] => n
  | s :: p' =>
      match n with
      | File _ => n
      | Dir es =>
          match p' with
          | [] => Dir (delete s es)
          | _ :: _ => Dir (alter (fun child => remove_path child p') s es)
          end
      end
  end.

(** [path.join(dir, name)] for a plain file name. *)
Definition join (dir : path) (name : jsstring) : path := dir ++ [name].

End Fs.

Import Fs.

(** ** The machine: state, outcomes and the environment *)

Module Machine.

Inductive error : Type :=
| PromptAborted                    (* the prompt session was interrupted *)
| TypeError                        (* raised by the runtime *)
| IOError                          (* raised by a file-system call *)
| ParseError                       (* package.json is not JSON *)
| InstallError (code : option Z).  (* "npm install" closed with [code] *)

Inductive message : Type :=
| MsgWelcome
| MsgUsage
| MsgDirExists (dirName : jsstring)
| MsgCreating | MsgCreated | MsgCreateFailed
| MsgInstalling | MsgInstalled | MsgInstallFailed (e : error)
| MsgDone
| MsgCd (dirName : jsstring)
| MsgNpmInstall | MsgNpmRunDev | MsgNpmRunBuild
| MsgFailed (e : error)
| MsgCleaning | MsgCleaned
| MsgUnexpected (e : error).

(** What the program does to the outside, in order. *)
Inductive event : Type :=
| Print (m : message)
| Prompt (initial : jsstring)
| Copy (src dest : path)
| ReadJSON (file : path)
| WriteJSON (file : path) (spaces : nat)
| Spawn (cwd : path)
| Remove (target : path).

(** [destDir] and [finalDirName] are the two [let] variables of [main]. *)
Record State : Type := mkState {
  st_fs : node;
  st_trace : list event;
  var_destDir : option path;
  var_finalDirName : option jsstring;
}.

(** A call returns, throws, or ends the process with [process.exit]. *)
Inductive outcome (A : Type) : Type :=
| Ret (a : A)
| Throw (e : error)
| Exit (code : Z).

Arguments Ret {A} a.
Arguments Throw {A} e.
Arguments Exit {A} code.

Definition M (A : Type) : Type := State -> outcome A * State.

Definition ret {A} (a : A) : M A := fun st => (Ret a, st).
Definition throw {A} (e : error) : M A := fun st => (Throw e, st).
Definition exit {A} (code : Z) : M A := fun st => (Exit code, st).

Definition bind {A B} (m : M A) (k : A -> M B) : M B :=
  fun st =>
    match m st with
    | (Ret a, st') => k a st'
    | (Throw e, st') => (Throw e, st')
    | (Exit c, st') => (Exit c, st')
    end.

(** [try { body } catch (err) { handler }]: only a throw reaches the handler;
    [process.exit] ends the process where it is called. *)
Definition try_catch {A} (body : M A) (handler : error -> M A) : M A :=
  fun st =>
    match body st with
    | (Throw e, st') => handler e st'
    | r => r
    end.

Notation "x <- m ;; k" := (bind m (fun x => k))
  (at level 100, m at next level, right associativity).
Notation "m ;;; k" := (bind m (fun _ => k))
  (at level 100, right associativity).

Definition emit (e : event) : M unit :=
  fun st => (Ret tt, mkState (st_fs st) (st_trace st ++ [e])
                             (var_destDir st) (var_finalDirName st)).

Definition print (m : message) : M unit := emit (Print m).

Definition get_fs : M node := fun st => (Ret (st_fs st), st).

Definition set_fs (root : node) : M unit :=
  fun st => (Ret tt, mkState root (st_trace st)
                             (var_destDir st) (var_finalDirName st)).

Definition get_destDir : M (option path) :=
  fun st => (Ret (var_destDir st), st).

Definition set_destDir (d : option path) : M unit :=
  fun st => (Ret tt, mkState (st_fs st) (st_trace st) d (var_finalDirName st)).

Definition set_finalDirName (d : option jsstring) : M unit :=
  fun st => (Ret tt, mkState (st_fs st) (st_trace st) (var_destDir st) d).

(** What the user does at a question. *)
Inductive reply (A : Type) : Type :=
| Given (a : A)      (* types an answer and submits it *)
| Enter              (* submits the proposed default *)
| Interrupt.         (* aborts the session *)

Arguments Given {A} a.
Arguments Enter {A}.
Arguments Interrupt {A}.

Inductive copy_outcome : Type :=
| CopyDone
| CopyFailed (residue : option node).   (* what was left at the destination *)

Inductive write_outcome : Type :=
| WriteDone
| WriteFailed (residue : option jsstring).  (* what was left in the file *)

Inductive remove_outcome : Type :=
| RemoveDone
| RemoveFailed (residue : node).        (* what was left at the target *)

(** Everything the program takes from outside itself. *)
Record Env : Type := mkEnv {
  argv2 : option jsstring;                  (* process.argv[2] *)
  cwd : path;                               (* process.cwd() *)
  install_dir : path;                       (* __dirname *)
  resolve : path -> jsstring -> path;       (* path.resolve *)
  unicode_lower : unicode_table;
  name_replies : list (reply jsstring);     (* the user, question 1 *)
  confirm_reply : reply bool;               (* the user, question 2 *)
  JSON_parse : jsstring -> option json;
  JSON_stringify : json -> nat -> jsstring;
  copy_merge : node -> node -> option node; (* copy onto an existing entry *)
  copy_result : copy_outcome;
  write_result : write_outcome;
  npm_install : node -> path -> node * option Z;
  remove_result : remove_outcome;
}.

End Machine.

Import Machine.

(** ** Library calls *)

Section Library.

Variable env : Env.

(** enquirer's [prompt] for the two questions of [askForOptions]: the name
    question is asked again until the submitted value passes [validate]. *)
Fixpoint ask_name (validate : jsstring -> bool) (initial : jsstring)
    (replies : list (reply jsstring)) : option jsstring :=
  match replies with
  | [] => None
  | Interrupt :: _ => None
  | Given name :: rest =>
      if validate name then Some name else ask_name validate initial rest
  | Enter :: rest =>
      if validate initial then Some initial
      else ask_name validate initial rest
  end.

Definition ask_confirm (initial : bool) (r : reply bool) : option bool :=
  match r with
  | Given b => Some b
  | Enter => Some initial
  | Interrupt => None
  end.

(** fs-extra [copy(src, dest)]: an absent destination becomes a copy of the
    tree at [src], missing parent directories being created. *)
Definition copy (src dest : path) : M unit :=
  emit (Copy src dest) ;;;
  root <- get_fs ;;
  match lookup_path root src with
  | None => throw IOError
  | Some tree =>
      match copy_result env with
      | CopyFailed None => throw IOError
      | CopyFailed (Some residue) =>
          match put_path true root dest residue with
          | Some root' => set_fs root' ;;; throw IOError
          | None => throw IOError
          end
      | CopyDone =>
          let merged :=
            match lookup_path root dest with
            | None => Some tree
            | Some old => copy_merge env tree old
            end in
          match merged with
          | None => throw IOError
          | Some new =>
              match put_path true root dest new with
              | Some root' => set_fs root'
              | None => throw IOError
              end
          end
      end
  end.

(** fs-extra [readJSON(file)] *)
Definition readJSON (file : path) : M json :=
  emit (ReadJSON file) ;;;
  root <- get_fs ;;
  match read_file root file with
  | None => throw IOError
  | Some text =>
      match JSON_parse env text with
      | None => throw ParseError
      | Some v => ret v
      end
  end.

(** fs-extra [writeJSON(file, obj, { spaces })] *)
Definition writeJSON (file : path) (obj : json) (spaces : nat) : M unit :=
  emit (WriteJSON file spaces) ;;;
  root <- get_fs ;;
  let put text :=
    match put_path false root file (File text) with
    | Some root' => set_fs root'
    | None => throw IOError
    end in
  match lookup_path root file with
  | Some (Dir _) => throw IOError
  | _ =>
      match write_result env with
      | WriteDone => put (JSON_stringify env obj spaces)
      | WriteFailed None => throw IOError
      | WriteFailed (Some text) => put text ;;; throw IOError
      end
  end.

(** fs-extra [remove(target)] *)
Definition remove (target : path) : M unit :=
  emit (Remove target) ;;;
  root <- get_fs ;;
  match remove_result env with
  | RemoveDone => set_fs (remove_path root target)
  | RemoveFailed residue =>
      match put_path false (remove_path root target) target residue with
      | Some root' => set_fs root' ;;; throw IOError
      | None => throw IOError
      end
  end.

(** [spawn("npm", ["install"], { cwd })] and its ["close"] event. *)
Definition spawn_npm_install (dir : path) : M (option Z) :=
  emit (Spawn dir) ;;;
  root <- get_fs ;;
  let '(root', code) := npm_install env root dir in
  set_fs root' ;;;
  ret code.

(** [packageJson.name = projectName] in strict-mode code: a property of an
    object is set; a named property of an array is not part of its JSON
    text; [null] and primitive values raise. *)
Definition assign_name (packageJson : json) (projectName : jsstring) : M json :=
  match packageJson with
  | JObj fields => ret (JObj (set_prop (js "name") (JStr projectName) fields))
  | JArr items => ret (JArr items)
  | _ => throw TypeError
  end.

End Library.

(** ** The program (index.mjs, lines 17-21 and 49-201) *)

Section Program.

Variable env : Env.

Record Options : Type := mkOptions {
  packageName : jsstring;
  installDeps : bool;
}.

Definition printWelcome : M unit := print MsgWelcome.

Definition askForOptions (targetDir : jsstring) : M Options :=
  let initial := toValidPackageName (unicode_lower env) targetDir in
  emit (Prompt initial) ;;;
  match ask_name isValidPackageName initial (name_replies env) with
  | None => throw PromptAborted
  | Some name =>
      match ask_confirm true (confirm_reply env) with
      | None => throw PromptAborted
      | Some install => ret (mkOptions name install)
      end
  end.

Definition copyTemplate (src dest : path) : M unit :=
  print MsgCreating ;;;
  try_catch
    (copy env src dest ;;;
     print MsgCreated)
    (fun err =>
       print MsgCreateFailed ;;;
       throw err).

Definition updatePackageJson (destDir : path) (projectName : jsstring)
  : M unit :=
  let packageJsonPath := join destDir (js "package.json") in
  packageJson <- readJSON env packageJsonPath ;;
  packageJson' <- assign_name packageJson projectName ;;
  writeJSON env packageJsonPath packageJson' 2.

Definition installDependencies (destDir : path) : M unit :=
  print MsgInstalling ;;;
  try_catch
    (code <- spawn_npm_install env destDir ;;
     match code with
     | Some 0%Z => ret tt
     | _ => throw (InstallError code)
     end ;;;
     print MsgInstalled)
    (fun err =>
       print (MsgInstallFailed err) ;;;
       throw err).

Definition printCompletion (targetDir : jsstring) (installDeps : bool)
  : M unit :=
  print MsgDone ;;;
  print (MsgCd targetDir) ;;;
  (if negb installDeps then print MsgNpmInstall else ret tt) ;;;
  print MsgNpmRunDev ;;;
  print MsgNpmRunBuild.

(** [!initialTargetDir]: [undefined] and the empty string are falsy. *)
Definition falsy (v : option jsstring) : bool :=
  match v with
  | None | Some [] => true
  | Some (_ :: _) => false
  end.

Definition main : M unit :=
  printWelcome ;;;
  let initialTargetDir := argv2 env in
  (if falsy initialTargetDir then print MsgUsage ;;; exit 1%Z else ret tt) ;;;
  set_destDir None ;;;
  set_finalDirName None ;;;
  try_catch
    (options <- askForOptions (default [] initialTargetDir) ;;
     let finalDirName := packageNameToDirName (packageName options) in
     set_finalDirName finalDirName ;;;
     (* path.resolve raises on an argument that is not a string *)
     destDir <- match finalDirName with
                | Some d => ret (resolve env (cwd env) d)
                | None => throw TypeError
                end ;;
     set_destDir (Some destDir) ;;;
     root <- get_fs ;;
     (if existsSync root destDir
      then print (MsgDirExists (default [] finalDirName)) ;;; exit 1%Z
      else ret tt) ;;;
     copyTemplate (join (install_dir env) (js "template")) destDir ;;;
     updatePackageJson destDir (packageName options) ;;;
     (if installDeps options then installDependencies destDir else ret tt) ;;;
     printCompletion (default [] finalDirName) (installDeps options))
    (fun err =>
       print (MsgFailed err) ;;;
       destDir <- get_destDir ;;
       root <- get_fs ;;
       match destDir with
       | Some d =>
           if existsSync root d
           then print MsgCleaning ;;; remove env d ;;; print MsgCleaned
           else ret tt
       | None => ret tt
       end ;;;
       exit 1%Z).

(** [main().catch(...)]: the process and its exit code. *)
Definition run (st : State) : Z * State :=
  match main st with
  | (Ret _, st') => (0%Z, st')
  | (Exit code, st') => (code, st')
  | (Throw e, st') =>
      match print (MsgUnexpected e) st' with
      | (_, st'') => (1%Z, st'')
      end
  end.

Definition start (root : node) : State := mkState root [] None None.

End Program.

(** ** Readings of the specification's wording, for comparison *)

Module Spec.

(** "lowercase alphanumerics, [-], [.], [~]" *)
Definition name_char (c : char) : bool :=
  is_lower c || is_digit c || is_char ch_dash c || is_char ch_dot c
  || is_char ch_tilde c.

(** A name segment "made of lowercase alphanumerics, [-], [.], [~], with no
    leading [.] or [_]". *)
Definition name_segment (n : jsstring) : Prop :=
  exists c rest,
    n = c :: rest /\ Forall (fun x => name_char x = true) n
    /\ dot_or_underscore c = false.

(** "an optional [@scope/] prefix followed by a name segment"; the wording
    does not say which scopes are meant, so [scope_ok] is left open. *)
Definition package_name (scope_ok : jsstring -> Prop) (name : jsstring)
  : Prop :=
  name_segment name
  \/ exists scope n,
       name = ch_at :: scope ++ ch_slash :: n
       /\ scope_ok scope /\ name_segment n.

(** "the substring after the first [/]" *)
Definition after_first_slash (name : jsstring) : jsstring :=
  match drop_while (fun c => negb (is_char ch_slash c)) name with
  | [] => []
  | _ :: rest => rest
  end.

End Spec.

(** ** The package-name grammar the validator implements *)

Definition all_in (p : char -> bool) (s : jsstring) : Prop :=
  Forall (fun c => p c = true) s.

(** First unit of [[a-z0-9-~]], then units of [[a-z0-9-._~]]. *)
Definition name_segment (n : jsstring) : Prop :=
  exists c rest, n = c :: rest /\ name_head c = true /\ all_in name_tail rest.

(** First unit of [[a-z0-9-*~]], then units of [[a-z0-9-*._~]]. *)
Definition scope_segment (sc : jsstring) : Prop :=
  exists c rest, sc = c :: rest /\ scope_head c = true /\ all_in scope_tail rest.

Definition package_name (name : jsstring) : Prop :=
  name_segment name
  \/ exists sc n,
       name = ch_at :: sc ++ ch_slash :: n
       /\ scope_segment sc /\ name_segment n.

(** Any unit but [k]. *)
Definition other_than (k c : char) : bool := negb (is_char k c).

Definition no_slash (c : char) : bool := other_than ch_slash c.

(** [[A-Za-z0-9]] and [[a-z0-9]] *)
Definition is_alnum (c : char) : bool :=
  is_lower c || is_upper c || is_digit c.
Definition is_lower_alnum (c : char) : bool := is_lower c || is_digit c.

(** [pieces.join(k)] for a one-unit separator. *)
Fixpoint join_pieces (k : char) (pieces : list jsstring) : jsstring :=
  match pieces with
  | [] => []
  | [piece] => piece
  | piece :: rest => piece ++ k :: join_pieces k rest
  end.

(** The number of units of [s] equal to [k]. *)
Definition occurrences (k : char) (s : jsstring) : nat :=
  length (List.filter (is_char k) s).

(** ** A concrete environment, to run the model *)

Module Demo.

(** A lower-case table that leaves every non-ASCII unit as it is. *)
Definition ul_id : unicode_table := fun _ c _ => [c].

Definition quoted (s : jsstring) : jsstring := 34 :: s ++ [34].

(** The text [{"name":"template","version":"1.0.0"}]. *)
Definition manifest_text : jsstring :=
  js "{" ++ quoted (js "name") ++ js ":" ++ quoted (js "template") ++ js ","
  ++ quoted (js "version") ++ js ":" ++ quoted (js "1.0.0") ++ js "}".

Definition manifest : json :=
  JObj [(js "name", JStr (js "template"));
        (js "version", JStr (js "1.0.0"))].

(** A codec that reads the template's manifest and writes objects whose
    values are strings, one property per line. *)
Definition parse (text : jsstring) : option json :=
  if decide (text = manifest_text) then Some manifest else None.

Fixpoint print_fields (spaces : nat) (fields : list (jsstring * json))
  : jsstring :=
  match fields with
  | [] => []
  | (k, v) :: rest =>
      repeat 32 spaces ++ quoted k ++ js ": "
      ++ match v with JStr s => quoted s | _ => js "null" end
      ++ match rest with [] => [] | _ :: _ => js "," end
      ++ [10] ++ print_fields spaces rest
  end.

Definition stringify (v : json) (spaces : nat) : jsstring :=
  match v with
  | JObj fields => js "{" ++ [10] ++ print_fields spaces fields ++ js "}" ++ [10]
  | JStr s => quoted s
  | _ => js "null"
  end.

Definition template : node :=
  Dir {[ js "package.json" := File manifest_text ]}.

(** [/app/template] holds the template; [/work] is the working directory. *)
Definition root : node :=
  Dir (<[ js "app" := Dir {[ js "template" := template ]} ]>
         {[ js "work" := Dir ∅ ]}).

(** The same, with [/work/my-cool-app/notes.txt] already there. *)
Definition root_taken : node :=
  Dir (<[ js "app" := Dir {[ js "template" := template ]} ]>
         {[ js "work" :=
              Dir {[ js "my-cool-app" :=
                       Dir {[ js "notes.txt" := File (js "keep") ]} ]} ]}).

(** The user accepts both defaults; the installer closes with code 1. *)
Definition env : Env :=
  mkEnv (Some (js "My Cool App")) [js "work"] [js "app"]
    (fun dir name => dir ++ [name]) ul_id
    [Enter] Enter parse stringify (fun _ _ => None)
    CopyDone WriteDone (fun fs _ => (fs, Some 1%Z)) RemoveDone.

(** The states of that run after the copy step and after the patch step. *)
Definition after_copy : State :=
  (copyTemplate env [js "app"; js "template"] [js "work"; js "my-cool-app"]
     (mkState root [Print MsgWelcome; Prompt (js "my-cool-app")]
        (Some [js "work"; js "my-cool-app"]) (Some (js "my-cool-app")))).2.

Definition after_patch : State :=
  (updatePackageJson env [js "work"; js "my-cool-app"] (js "my-cool-app")
     after_copy).2.

End Demo.

(** Variations of the demo environment: the argument, the answers, the
    outcome of the copy and the installer's code are chosen. *)
Module Scenario.

Definition env_with (arg : option jsstring) (names : list (reply jsstring))
    (confirm : reply bool) (copied : copy_outcome) (code : option Z) : Env :=
  mkEnv arg [js "work"] [js "app"]
    (fun dir name => dir ++ [name]) Demo.ul_id
    names confirm Demo.parse Demo.stringify (fun _ _ => None)
    copied WriteDone (fun fs _ => (fs, code)) RemoveDone.

Definition hint : option jsstring := Some (js "My Cool App").

(** No argument on the command line. *)
Definition no_argument : Env := env_with None [Enter] Enter CopyDone None.

(** An invalid answer, then an interrupt. *)
Definition interrupted : Env :=
  env_with hint [Given (js "Bad Name"); Interrupt] Enter CopyDone None.

(** The copy fails after creating the destination directory. *)
Definition copy_fails : Env :=
  env_with hint [Enter] Enter (CopyFailed (Some (Dir ∅))) None.

(** The user declines the installation. *)
Definition declined : Env :=
  env_with hint [Enter] (Given false) CopyDone None.

(** The installer closes with code 0. *)
Definition installed : Env :=
  env_with hint [Enter] Enter CopyDone (Some 0%Z).

Definition dest : path := [js "work"; js "my-cool-app"].

Definition before_copy : State :=
  mkState Demo.root [Print MsgWelcome; Prompt (js "my-cool-app")]
    (Some dest) (Some (js "my-cool-app")).

Definition after_copy (e : Env) : State :=
  (copyTemplate e [js "app"; js "template"] dest before_copy).2.

Definition after_patch (e : Env) : State :=
  (updatePackageJson e dest (js "my-cool-app") (after_copy e)).2.

End Scenario.

Example valid_scoped : isValidPackageName (js "@acme/widget") = true.
Proof. reflexivity. Qed.

Example invalid_upper : isValidPackageName (js "My App") = false.
Proof. reflexivity. Qed.

Example normalize_hint :
  toValidPackageName Demo.ul_id (js "My Cool App") = js "my-cool-app".
Proof. reflexivity. Qed.

Example normalize_messy :
  toValidPackageName Demo.ul_id (js "  _Foo  Bar!!.baz ") = js "foo-bar-baz".
Proof. reflexivity. Qed.

(** ** The regex test decides the language *)

Section RegexFacts.

Lemma Lang_Class p s : Lang (Class p) s <-> exists c, s = [c] /\ p c = true.
Proof.
  split.
  - intros H; inversion H; subst; eauto.
  - intros (c & -> & H). constructor; assumption.
Qed.

Lemma Lang_Lit k s : Lang (Lit k) s <-> s = [k].
Proof.
  unfold Lit. rewrite Lang_Class. unfold is_char. split.
  - intros (c & -> & H). apply N.eqb_eq in H. congruence.
  - intros ->. exists k. split; [reflexivity | apply N.eqb_refl].
Qed.

Lemma Lang_Seq r1 r2 s :
  Lang (Seq r1 r2) s <-> exists s1 s2, s = s1 ++ s2 /\ Lang r1 s1 /\ Lang r2 s2.
Proof.
  split.
  - intros H; inversion H; subst; eauto.
  - intros (s1 & s2 & -> & H1 & H2). constructor; assumption.
Qed.

Lemma Lang_Alt r1 r2 s : Lang (Alt r1 r2) s <-> Lang r1 s \/ Lang r2 s.
Proof.
  split.
  - intros H; inversion H; subst; auto.
  - intros [H|H]; [apply LAltL | apply LAltR]; assumption.
Qed.

Lemma Lang_Eps s : Lang Eps s <-> s = [].
Proof.
  split; [intros H; inversion H; reflexivity | intros ->; constructor].
Qed.

Lemma Lang_Void s : ~ Lang Void s.
Proof. intros H; inversion H. Qed.

Lemma Lang_Opt r s : Lang (Opt r) s <-> Lang r s \/ s = [].
Proof. unfold Opt. rewrite Lang_Alt, Lang_Eps. reflexivity. Qed.

Lemma nullable_Lang r : nullable r = true <-> Lang r [].
Proof.
  induction r as [| |p|r1 IH1 r2 IH2|r1 IH1 r2 IH2|r IH]; simpl.
  - split; [discriminate | intros H; destruct (Lang_Void _ H)].
  - split; [constructor | reflexivity].
  - split; [discriminate|]. intros H.
    apply Lang_Class in H as (c & E & _). discriminate.
  - rewrite andb_true_iff, IH1, IH2, Lang_Seq. split.
    + intros [H1 H2]. exists [], []. auto.
    + intros (s1 & s2 & E & H1 & H2). symmetry in E.
      apply app_eq_nil in E as [-> ->]. auto.
  - rewrite orb_true_iff, IH1, IH2, Lang_Alt. reflexivity.
  - split; [constructor | reflexivity].
Qed.

(** A non-empty match of [r*] starts with a non-empty match of [r]. *)
Lemma star_cons_inv r c s :
  Lang (Star r) (c :: s) ->
  exists s1 s2, s = s1 ++ s2 /\ Lang r (c :: s1) /\ Lang (Star r) s2.
Proof.
  intros H. remember (Star r) as r' eqn:Er. remember (c :: s) as t eqn:Et.
  revert c s Et.
  induction H as [| | | | | |r0 s1 s2 H1 _ H2 IH2]; intros a t Et;
    try discriminate.
  injection Er as ->.
  destruct s1 as [|c1 s1]; simpl in Et.
  - apply IH2; [reflexivity | assumption].
  - injection Et as -> <-. exists s1, s2. auto.
Qed.

Lemma deriv_Seq_fwd c r1 r2 t :
  (forall s, Lang (deriv c r1) s <-> Lang r1 (c :: s)) ->
  Lang (Seq (deriv c r1) r2) t <->
  exists s1 s2, t = s1 ++ s2 /\ Lang r1 (c :: s1) /\ Lang r2 s2.
Proof.
  intros IH1. rewrite Lang_Seq. split.
  - intros (s1 & s2 & -> & H1 & H2). exists s1, s2. rewrite <- IH1. auto.
  - intros (s1 & s2 & -> & H1 & H2). exists s1, s2. rewrite IH1. auto.
Qed.

Lemma deriv_Lang c r : forall s, Lang (deriv c r) s <-> Lang r (c :: s).
Proof.
  induction r as [| |p|r1 IH1 r2 IH2|r1 IH1 r2 IH2|r IH]; simpl; intros s.
  - split; intros H; destruct (Lang_Void _ H).
  - rewrite Lang_Eps. split; intros H; [destruct (Lang_Void _ H) | discriminate].
  - rewrite Lang_Class. destruct (p c) eqn:Ep.
    + rewrite Lang_Eps. split.
      * intros ->. eauto.
      * intros (c' & E & _). congruence.
    + split; [intros H; destruct (Lang_Void _ H)|].
      intros (c' & E & Hc'). congruence.
  - assert (Hseq := deriv_Seq_fwd c r1 r2 s IH1).
    rewrite (Lang_Seq r1 r2).
    destruct (nullable r1) eqn:En.
    + rewrite Lang_Alt, Hseq, IH2. split.
      * intros [(s1 & s2 & -> & H1 & H2)|H].
        -- exists (c :: s1), s2. auto.
        -- exists [], (c :: s). split; [reflexivity|].
           split; [apply nullable_Lang, En | assumption].
      * intros (s1 & s2 & E & H1 & H2). destruct s1 as [|c1 s1]; simpl in E.
        -- subst s2. right; assumption.
        -- injection E as <- ->. left. eauto.
    + rewrite Hseq. split.
      * intros (s1 & s2 & -> & H1 & H2). exists (c :: s1), s2. auto.
      * intros (s1 & s2 & E & H1 & H2). destruct s1 as [|c1 s1]; simpl in E.
        -- apply nullable_Lang in H1. congruence.
        -- injection E as <- ->. eauto.
  - rewrite !Lang_Alt, IH1, IH2. reflexivity.
  - rewrite (deriv_Seq_fwd c r (Star r) s IH). split.
    + intros (s1 & s2 & -> & H1 & H2).
      change (c :: s1 ++ s2) with ((c :: s1) ++ s2). constructor; assumption.
    + apply star_cons_inv.
Qed.

Lemma test_Lang s : forall r, test r s = true <-> Lang r s.
Proof.
  induction s as [|c s IH]; intros r; simpl.
  - apply nullable_Lang.
  - rewrite IH. apply deriv_Lang.
Qed.

Lemma Lang_Star_Class p s : Lang (Star (Class p)) s <-> all_in p s.
Proof.
  split.
  - intros H. remember (Star (Class p)) as r eqn:Er.
    induction H as [| | | | | |r0 s1 s2 H1 _ _ IH2]; try discriminate.
    + constructor.
    + injection Er as ->. inversion H1; subst. simpl.
      constructor; [assumption | apply IH2; reflexivity].
  - intros H. induction H as [|c s Hc _ IH].
    + constructor.
    + change (c :: s) with ([c] ++ s). constructor; [constructor|]; assumption.
Qed.

Lemma Lang_name_re s : Lang name_re s <-> name_segment s.
Proof.
  unfold name_re, name_segment. rewrite Lang_Seq. split.
  - intros (s1 & s2 & -> & H1 & H2).
    apply Lang_Class in H1 as (c & -> & Hc). apply Lang_Star_Class in H2.
    exists c, s2. auto.
  - intros (c & rest & -> & Hc & Hr). exists [c], rest.
    split; [reflexivity|]. split; [apply Lang_Class; eauto|].
    apply Lang_Star_Class; assumption.
Qed.

Lemma Lang_scope_re s :
  Lang scope_re s <->
  s = [] \/ exists sc, s = ch_at :: sc ++ [ch_slash] /\ scope_segment sc.
Proof.
  unfold scope_re, scope_segment. rewrite Lang_Opt, Lang_Seq. split.
  - intros [(s1 & s2 & -> & H1 & H2)| ->]; [right | left; reflexivity].
    apply Lang_Lit in H1 as ->.
    apply Lang_Seq in H2 as (s3 & s4 & -> & H3 & H4).
    apply Lang_Class in H3 as (c & -> & Hc).
    apply Lang_Seq in H4 as (s5 & s6 & -> & H5 & H6).
    apply Lang_Star_Class in H5. apply Lang_Lit in H6 as ->.
    exists (c :: s5). split; [reflexivity|]. exists c, s5. auto.
  - intros [->|(sc & -> & c & rest & -> & Hc & Hr)]; [right; reflexivity|].
    left. exists [ch_at], (c :: rest ++ [ch_slash]).
    split; [reflexivity|]. split; [apply Lang_Lit; reflexivity|].
    apply Lang_Seq. exists [c], (rest ++ [ch_slash]).
    split; [reflexivity|]. split; [apply Lang_Class; eauto|].
    apply Lang_Seq. exists rest, [ch_slash].
    split; [reflexivity|]. split; [apply Lang_Star_Class; assumption|].
    apply Lang_Lit; reflexivity.
Qed.

Lemma Lang_package_name_re s : Lang package_name_re s <-> package_name s.
Proof.
  unfold package_name_re, package_name. rewrite Lang_Seq. split.
  - intros (s1 & s2 & -> & H1 & H2).
    apply Lang_name_re in H2.
    apply Lang_scope_re in H1 as [->|(sc & -> & Hsc)]; [left; assumption|].
    right. exists sc, s2. split; [|auto].
    simpl. rewrite <- app_assoc. reflexivity.
  - intros [H|(sc & n & -> & Hsc & Hn)].
    + exists [], s. split; [reflexivity|].
      split; [apply Lang_scope_re; left; reflexivity | apply Lang_name_re, H].
    + exists (ch_at :: sc ++ [ch_slash]), n.
      split; [simpl; rewrite <- app_assoc; reflexivity|].
      split; [apply Lang_scope_re; right; eauto | apply Lang_name_re, Hn].
Qed.

End RegexFacts.

(** ** Character classes *)

Ltac unfold_classes :=
  unfold name_head, name_tail, scope_head, scope_tail, not_name_head,
    dot_or_underscore, no_slash, other_than, Spec.name_char, is_space, is_lower,
    is_upper, is_digit, is_char, in_range, ascii_lower, ch_dash, ch_dot,
    ch_slash, ch_star, ch_at, ch_underscore, ch_tilde in *.

Ltac bool_prop :=
  repeat (rewrite ?orb_true_iff, ?orb_false_iff, ?andb_true_iff,
            ?andb_false_iff, ?negb_true_iff, ?negb_false_iff,
            ?N.leb_le, ?N.leb_gt, ?N.eqb_eq, ?N.eqb_neq,
            ?N.ltb_lt, ?N.ltb_ge in *).

Ltac char_lia := unfold_classes; bool_prop; lia.

Section CharFacts.

Lemma name_head_tail c : name_head c = true -> name_tail c = true.
Proof. char_lia. Qed.

Lemma name_head_not_space c : name_head c = true -> is_space c = false.
Proof. char_lia. Qed.

Lemma name_head_not_upper c : name_head c = true -> is_upper c = false.
Proof. char_lia. Qed.

Lemma name_head_ascii c : name_head c = true -> (c <? 128) = true.
Proof. char_lia. Qed.

Lemma name_head_not_dot_underscore c :
  name_head c = true -> dot_or_underscore c = false.
Proof. char_lia. Qed.

Lemma name_head_kept c : name_head c = true -> not_name_head c = false.
Proof. unfold not_name_head. intros ->. reflexivity. Qed.

Lemma name_head_dash : name_head ch_dash = true.
Proof. reflexivity. Qed.

Lemma name_tail_no_slash c : name_tail c = true -> no_slash c = true.
Proof. char_lia. Qed.

Lemma scope_tail_no_slash c : scope_tail c = true -> no_slash c = true.
Proof. char_lia. Qed.

Lemma scope_head_tail c : scope_head c = true -> scope_tail c = true.
Proof. char_lia. Qed.

Lemma name_head_excludes c :
  name_head c = true ->
  is_space c = false /\ is_upper c = false /\ c <> ch_dot
  /\ c <> ch_underscore /\ c <> ch_slash /\ c <> ch_at.
Proof.
  intros H. split; [apply name_head_not_space, H|].
  split; [apply name_head_not_upper, H|]. char_lia.
Qed.

End CharFacts.

(** ** String operations *)

Section StringFacts.

Variable p : char -> bool.

Lemma drop_while_none s :
  Forall (fun c => p c = false) s -> drop_while p s = s.
Proof.
  intros H. destruct H as [|c s Hc _]; simpl; [reflexivity|].
  rewrite Hc. reflexivity.
Qed.

Lemma take_while_all s : all_in p s -> take_while p s = s.
Proof.
  intros H. induction H as [|c s Hc _ IH]; simpl; [reflexivity|].
  rewrite Hc, IH. reflexivity.
Qed.

Lemma drop_while_keeps (q : char -> bool) s :
  (forall c, q c = true -> p c = false) ->
  Exists (fun c => q c = true) s ->
  Exists (fun c => q c = true) (drop_while p s).
Proof.
  intros Hqp H. induction H as [c s Hc|c s Hs IH]; simpl.
  - rewrite (Hqp _ Hc). constructor. assumption.
  - destruct (p c); [assumption | apply Exists_cons_tl; assumption].
Qed.

Lemma replace_runs_from_none b s :
  Forall (fun c => p c = false) s -> replace_runs_from p b s = s.
Proof.
  intros H. revert b. induction H as [|c s Hc _ IH]; intros b; simpl.
  - reflexivity.
  - rewrite Hc, IH. reflexivity.
Qed.

Lemma replace_runs_from_keeps (q : char -> bool) b s :
  (forall c, q c = true -> p c = false) ->
  Exists (fun c => q c = true) s ->
  Exists (fun c => q c = true) (replace_runs_from p b s).
Proof.
  intros Hqp H. revert b.
  induction H as [c s Hc|c s _ IH]; intros b; simpl.
  - rewrite (Hqp _ Hc). constructor. assumption.
  - destruct (p c); [destruct b|]; auto using Exists_cons_tl.
Qed.

(** After the replacement every unit is a dash or was outside the class. *)
Lemma replace_runs_from_result b s :
  Forall (fun c => c = ch_dash \/ p c = false) (replace_runs_from p b s).
Proof.
  revert b. induction s as [|c s IH]; intros b; simpl.
  - constructor.
  - destruct (p c) eqn:Hc; [destruct b|]; auto.
Qed.

Lemma strip_leading_none s :
  Forall (fun c => p c = false) s -> strip_leading p s = s.
Proof.
  intros H. destruct H as [|c s Hc _]; simpl; [reflexivity|].
  rewrite Hc. reflexivity.
Qed.

Lemma strip_leading_keeps (q : char -> bool) s :
  (forall c, q c = true -> p c = false) ->
  Exists (fun c => q c = true) s ->
  Exists (fun c => q c = true) (strip_leading p s).
Proof.
  intros Hqp H. destruct H as [c s Hc|c s H]; simpl.
  - rewrite (Hqp _ Hc). constructor. assumption.
  - destruct (p c); [assumption | apply Exists_cons_tl; assumption].
Qed.

End StringFacts.

Section TrimFacts.

Lemma trim_none s :
  Forall (fun c => is_space c = false) s -> trim s = s.
Proof.
  intros H. unfold trim, trimEnd, trimStart.
  rewrite (drop_while_none _ s H).
  rewrite drop_while_none; [apply rev_involutive|].
  apply Forall_rev. assumption.
Qed.

Lemma trim_keeps (q : char -> bool) s :
  (forall c, q c = true -> is_space c = false) ->
  Exists (fun c => q c = true) s ->
  Exists (fun c => q c = true) (trim s).
Proof.
  intros Hq H. unfold trim, trimEnd, trimStart.
  apply Exists_rev, drop_while_keeps; [assumption|].
  apply Exists_rev, drop_while_keeps; assumption.
Qed.

End TrimFacts.

Section LowerFacts.

Variable ul : unicode_table.

Lemma lower_from_none before s :
  all_in name_head s -> lower_from ul before s = s.
Proof.
  intros H. revert before.
  induction H as [|c s Hc _ IH]; intros before; simpl; [reflexivity|].
  rewrite (name_head_ascii _ Hc), IH. unfold ascii_lower.
  rewrite (name_head_not_upper _ Hc). reflexivity.
Qed.

Lemma ascii_lower_alnum c :
  is_alnum c = true ->
  (c <? 128) = true /\ is_lower_alnum (ascii_lower c) = true.
Proof.
  intros H. unfold ascii_lower.
  destruct (is_upper c) eqn:E; unfold is_alnum, is_lower_alnum in *; char_lia.
Qed.

Lemma lower_from_keeps before s :
  Exists (fun c => is_alnum c = true) s ->
  Exists (fun c => is_lower_alnum c = true) (lower_from ul before s).
Proof.
  intros H. revert before.
  induction H as [c s Hc|c s _ IH]; intros before; simpl.
  - destruct (ascii_lower_alnum _ Hc) as [-> Hl].
    constructor. assumption.
  - apply Exists_app. right. apply IH.
Qed.

End LowerFacts.

(** ** The normalizer *)

Section Normalizer.

Variable ul : unicode_table.

(** The last replacement leaves only units of [[a-z0-9-~]]. *)
Lemma toValidPackageName_name_head s :
  all_in name_head (toValidPackageName ul s).
Proof.
  unfold toValidPackageName, replace_runs, all_in.
  eapply List.Forall_impl; [|apply replace_runs_from_result].
  intros c [->|H]; [reflexivity|].
  unfold not_name_head in H. apply negb_false_iff in H. exact H.
Qed.

(** A name made of units of [[a-z0-9-~]] is left as it is. *)
Lemma toValidPackageName_fixes s :
  all_in name_head s -> toValidPackageName ul s = s.
Proof.
  intros H. unfold toValidPackageName, toLowerCase, replace_runs.
  assert (Hsp : Forall (fun c => is_space c = false) s)
    by (eapply List.Forall_impl; [apply name_head_not_space | exact H]).
  assert (Hdu : Forall (fun c => dot_or_underscore c = false) s)
    by (eapply List.Forall_impl;
        [apply name_head_not_dot_underscore | exact H]).
  assert (Hnh : Forall (fun c => not_name_head c = false) s)
    by (eapply List.Forall_impl; [apply name_head_kept | exact H]).
  rewrite (trim_none s Hsp), (lower_from_none ul [] s H).
  rewrite (replace_runs_from_none is_space false s Hsp).
  rewrite (strip_leading_none dot_or_underscore s Hdu).
  apply replace_runs_from_none, Hnh.
Qed.

Lemma is_lower_alnum_name_head c :
  is_lower_alnum c = true -> name_head c = true.
Proof. unfold is_lower_alnum. char_lia. Qed.

Lemma is_alnum_not_space c : is_alnum c = true -> is_space c = false.
Proof. unfold is_alnum. char_lia. Qed.

(** An ASCII letter or digit of the input survives, lower-cased. *)
Lemma toValidPackageName_keeps s :
  Exists (fun c => is_alnum c = true) s ->
  Exists (fun c => is_lower_alnum c = true) (toValidPackageName ul s).
Proof.
  intros H. unfold toValidPackageName, replace_runs, toLowerCase.
  apply replace_runs_from_keeps;
    [intros c Hc; apply name_head_kept, is_lower_alnum_name_head, Hc|].
  apply strip_leading_keeps;
    [intros c Hc;
     apply name_head_not_dot_underscore, is_lower_alnum_name_head, Hc|].
  apply replace_runs_from_keeps;
    [intros c Hc; apply name_head_not_space, is_lower_alnum_name_head, Hc|].
  apply lower_from_keeps, trim_keeps; [apply is_alnum_not_space | exact H].
Qed.

End Normalizer.

Section Validator.

Lemma isValidPackageName_grammar name :
  isValidPackageName name = true <-> package_name name.
Proof.
  unfold isValidPackageName. rewrite test_Lang. apply Lang_package_name_re.
Qed.

(** A non-empty string of units of [[a-z0-9-~]] is a valid unscoped name. *)
Lemma name_head_string_valid s :
  s <> [] -> all_in name_head s -> isValidPackageName s = true.
Proof.
  intros Hne H. apply isValidPackageName_grammar. left.
  destruct H as [|c s Hc Hs]; [congruence|].
  exists c, s. split; [reflexivity|]. split; [assumption|].
  eapply List.Forall_impl; [|exact Hs]. apply name_head_tail.
Qed.

End Validator.

(** ** Splitting at slashes *)

Section SplitFacts.

Variable k : char.


Lemma includes_false s : all_in (other_than k) s <-> includes k s = false.
Proof.
  unfold includes, all_in, other_than. induction s as [|c s IH]; simpl.
  - split; [reflexivity | constructor].
  - rewrite orb_false_iff, <- IH. split.
    + intros H. inversion H; subst. split; [apply negb_true_iff|]; assumption.
    + intros [H1 H2]. constructor; [apply negb_true_iff|]; assumption.
Qed.

Lemma split_none s : all_in (other_than k) s -> split k s = [s].
Proof.
  unfold other_than. intros H. induction H as [|c s Hc _ IH]; simpl; [reflexivity|].
  apply negb_true_iff in Hc. rewrite Hc, IH. reflexivity.
Qed.

Lemma split_head s :
  exists rest, split k s = take_while (other_than k) s :: rest.
Proof.
  unfold other_than. induction s as [|c s [rest IH]]; simpl; [eauto|].
  destruct (is_char k c); simpl; [eauto|]. rewrite IH. eauto.
Qed.

Lemma split_at_first a b :
  all_in (other_than k) a -> split k (a ++ k :: b) = a :: split k b.
Proof.
  unfold other_than. intros H. induction H as [|c s Hc _ IH]; simpl.
  - unfold is_char at 1. rewrite N.eqb_refl. reflexivity.
  - apply negb_true_iff in Hc. rewrite Hc, IH. reflexivity.
Qed.

Lemma includes_split s :
  includes k s = true ->
  exists a b, s = a ++ k :: b /\ all_in (other_than k) a.
Proof.
  unfold includes, other_than. induction s as [|c s IH]; simpl; [discriminate|].
  destruct (is_char k c) eqn:Hc; simpl.
  - intros _. exists [], s. split; [|constructor].
    unfold is_char in Hc. apply N.eqb_eq in Hc. subst c. reflexivity.
  - intros H. destruct (IH H) as (a & b & -> & Ha).
    exists (c :: a), b. split; [reflexivity|].
    constructor; [rewrite Hc; reflexivity | assumption].
Qed.

Lemma includes_app a b : includes k (a ++ k :: b) = true.
Proof.
  unfold includes. rewrite existsb_app. simpl.
  unfold is_char at 2. rewrite N.eqb_refl. apply orb_true_iff. right. reflexivity.
Qed.

End SplitFacts.

Section DirName.

Lemma packageNameToDirName_plain name :
  all_in no_slash name -> packageNameToDirName name = Some name.
Proof.
  intros H. unfold packageNameToDirName.
  apply includes_false in H. rewrite H. reflexivity.
Qed.

Lemma packageNameToDirName_slash a b :
  all_in no_slash a ->
  packageNameToDirName (a ++ ch_slash :: b) = Some (take_while no_slash b).
Proof.
  intros H. unfold packageNameToDirName.
  rewrite includes_app, (split_at_first ch_slash a b H).
  destruct (split_head ch_slash b) as [rest ->]. reflexivity.
Qed.

Lemma name_segment_no_slash n : name_segment n -> all_in no_slash n.
Proof.
  intros (c & rest & -> & Hc & Hr). constructor.
  - apply name_tail_no_slash, name_head_tail, Hc.
  - eapply List.Forall_impl; [|exact Hr]. apply name_tail_no_slash.
Qed.

Lemma scope_segment_no_slash sc : scope_segment sc -> all_in no_slash sc.
Proof.
  intros (c & rest & -> & Hc & Hr). constructor.
  - apply scope_tail_no_slash, scope_head_tail, Hc.
  - eapply List.Forall_impl; [|exact Hr]. apply scope_tail_no_slash.
Qed.

(** The directory name of a valid package name is its name segment. *)
Lemma packageNameToDirName_valid name :
  isValidPackageName name = true ->
  exists d, packageNameToDirName name = Some d /\ name_segment d.
Proof.
  intros H. apply isValidPackageName_grammar in H.
  destruct H as [H|(sc & n & -> & Hsc & Hn)].
  - exists name. split; [|assumption].
    apply packageNameToDirName_plain, name_segment_no_slash, H.
  - exists n. split; [|assumption].
    change (ch_at :: sc ++ ch_slash :: n) with ((ch_at :: sc) ++ ch_slash :: n).
    rewrite packageNameToDirName_slash.
    + rewrite take_while_all; [reflexivity | apply name_segment_no_slash, Hn].
    + constructor; [reflexivity | apply scope_segment_no_slash, Hsc].
Qed.

End DirName.

(** ** Properties of the name functions *)

Section NameClaims.

(** C1, counterexample: the validator accepts [a_b], whose name segment
    contains an underscore; the grammar as worded ("lowercase alphanumerics,
    [-], [.], [~]") has no underscore, whichever scopes are meant. *)
Lemma isValidPackageName_accepts_underscore :
  isValidPackageName (js "a_b") = true
  /\ forall scope_ok, ~ Spec.package_name scope_ok (js "a_b").
Proof.
  split; [reflexivity|].
  intros scope_ok [(c & rest & E & H & _)|(sc & n & E & _)].
  - inversion H as [|? ? _ H1]; subst.
    inversion H1 as [|? ? Hu _]; subst. discriminate Hu.
  - discriminate E.
Qed.

(** C1, as the code has it: [isValidPackageName name] is true exactly when
    [name] is a name segment (a first unit of [[a-z0-9-~]] followed by units
    of [[a-z0-9-._~]]), optionally preceded by [@], a scope segment (a first
    unit of [[a-z0-9-*~]] followed by units of [[a-z0-9-*._~]]) and [/]. *)
Theorem isValidPackageName_iff_package_name name :
  isValidPackageName name = true <-> package_name name.
Proof. apply isValidPackageName_grammar. Qed.

(** C4, counterexample: for [@scope/a/b] the function returns [a], while the
    substring after the first slash is [a/b]. *)
Lemma packageNameToDirName_not_after_first_slash :
  includes ch_slash (js "@scope/a/b") = true
  /\ Spec.after_first_slash (js "@scope/a/b") = js "a/b"
  /\ packageNameToDirName (js "@scope/a/b")
     <> Some (Spec.after_first_slash (js "@scope/a/b")).
Proof. split; [reflexivity|]. split; [reflexivity|]. discriminate. Qed.

(** C4, as the code has it: if [name] contains a slash,
    [packageNameToDirName name] is the part of [name] between its first slash
    and its next slash (or the end of [name] when there is no other slash);
    otherwise it is [name] unchanged. *)
Theorem packageNameToDirName_between_slashes name :
  (includes ch_slash name = true ->
   exists a b,
     name = a ++ ch_slash :: b /\ all_in no_slash a
     /\ packageNameToDirName name = Some (take_while no_slash b))
  /\ (includes ch_slash name = false ->
      packageNameToDirName name = Some name).
Proof.
  split; intros H.
  - destruct (includes_split ch_slash name H) as (a & b & -> & Ha).
    exists a, b. split; [reflexivity|]. split; [assumption|].
    apply packageNameToDirName_slash, Ha.
  - apply packageNameToDirName_plain, includes_false, H.
Qed.

Lemma packageNameToDirName_between_slashes_witness :
  exists a b,
    js "@scope/a/b" = a ++ ch_slash :: b /\ all_in no_slash a
    /\ packageNameToDirName (js "@scope/a/b") = Some (take_while no_slash b).
Proof.
  apply (proj1 (packageNameToDirName_between_slashes (js "@scope/a/b"))).
  reflexivity.
Defined.

(** C5: [packageNameToDirName] on [@scope/pkg], [plainname] and
    [@scope/a/b] gives [pkg], [plainname] and [a]: the input is split at
    every slash and the piece at index 1 is taken. *)
Theorem packageNameToDirName_examples :
  packageNameToDirName (js "@scope/pkg") = Some (js "pkg")
  /\ packageNameToDirName (js "plainname") = Some (js "plainname")
  /\ packageNameToDirName (js "@scope/a/b") = Some (js "a")
  /\ split ch_slash (js "@scope/a/b") = [js "@scope"; js "a"; js "b"].
Proof. repeat split. Qed.

(** C6: for a non-empty [s] that contains an ASCII letter or digit, the
    normalized name passes the validator. *)
Theorem toValidPackageName_valid ul s :
  s <> [] ->
  Exists (fun c => is_alnum c = true) s ->
  isValidPackageName (toValidPackageName ul s) = true.
Proof.
  intros _ H. apply name_head_string_valid.
  - apply (toValidPackageName_keeps ul) in H.
    intros E. rewrite E in H. inversion H.
  - apply toValidPackageName_name_head.
Qed.

Lemma toValidPackageName_valid_witness :
  isValidPackageName (toValidPackageName Demo.ul_id (js "My Cool App")) = true.
Proof.
  apply toValidPackageName_valid.
  - discriminate.
  - constructor. reflexivity.
Defined.

(** C7: normalizing twice gives the same name as normalizing once. *)
Theorem toValidPackageName_idempotent ul s :
  toValidPackageName ul (toValidPackageName ul s) = toValidPackageName ul s.
Proof. apply toValidPackageName_fixes, toValidPackageName_name_head. Qed.

(** C9: every unit of a normalized name is a lowercase letter, a digit, a
    dash or a tilde; so none is whitespace, an uppercase letter, a dot, an
    underscore, a slash or an at sign. *)
Theorem toValidPackageName_alphabet ul s :
  Forall (fun c =>
            (is_lower c || is_digit c || is_char ch_dash c
             || is_char ch_tilde c) = true
            /\ is_space c = false /\ is_upper c = false /\ c <> ch_dot
            /\ c <> ch_underscore /\ c <> ch_slash /\ c <> ch_at)
         (toValidPackageName ul s).
Proof.
  eapply List.Forall_impl; [|apply toValidPackageName_name_head].
  intros c Hc. split; [exact Hc | apply name_head_excludes, Hc].
Qed.

(** C10: the directory name of a name accepted by the validator is a
    non-empty string; it has no slash and is neither [.] nor [..], so it
    names an entry below the working directory. *)
Theorem packageNameToDirName_nonempty name :
  isValidPackageName name = true ->
  exists d,
    packageNameToDirName name = Some d
    /\ d <> [] /\ all_in no_slash d /\ d <> js "." /\ d <> js "..".
Proof.
  intros H. destruct (packageNameToDirName_valid name H) as (d & E & Hd).
  exists d. split; [exact E|].
  split; [|split; [apply name_segment_no_slash, Hd|]];
    destruct Hd as (c & rest & -> & Hc & _);
    [discriminate| split; intros Hdot; injection Hdot as -> _; discriminate Hc].
Qed.

Lemma packageNameToDirName_nonempty_witness :
  exists d,
    packageNameToDirName (js "@acme/widget") = Some d
    /\ d <> [] /\ all_in no_slash d /\ d <> js "." /\ d <> js "..".
Proof. apply packageNameToDirName_nonempty. reflexivity. Defined.

End NameClaims.

(** ** The file system tree *)

Section FsFacts.

Lemma lookup_path_file t (q : path) : q <> [] -> lookup_path (File t) q = None.
Proof. destruct q; [congruence | reflexivity]. Qed.

(** Nothing exists below an entry that does not exist. *)
Lemma lookup_path_none_below (p : path) :
  forall n q, lookup_path n p = None -> p `prefix_of` q -> lookup_path n q = None.
Proof.
  induction p as [|s p IH]; intros n q H [k ->]; simpl in *; [discriminate|].
  destruct n as [t|es]; [reflexivity|].
  destruct (es !! s) as [child|]; [|reflexivity].
  apply IH; [assumption | exists k; reflexivity].
Qed.

(** After [rm -rf p] nothing exists at or below [p]. *)
Lemma lookup_remove_path (p : path) :
  forall n, p <> [] -> lookup_path n p <> None ->
            lookup_path (remove_path n p) p = None.
Proof.
  induction p as [|s p IH]; intros n Hne Hex; [congruence|].
  destruct n as [t|es]; [simpl in Hex; congruence|].
  destruct p as [|s' p'].
  - simpl. rewrite lookup_delete_eq. reflexivity.
  - change (lookup_path (Dir es) (s :: s' :: p'))
      with (match es !! s with
            | Some child => lookup_path child (s' :: p')
            | None => None
            end) in Hex.
    change (match alter (fun child => remove_path child (s' :: p')) s es !! s
            with
            | Some child => lookup_path child (s' :: p')
            | None => None
            end = None).
    rewrite lookup_alter_eq.
    destruct (es !! s) as [child|]; [|reflexivity].
    apply IH; [discriminate | exact Hex].
Qed.

(** Overwriting an existing file succeeds and touches no other entry. *)
Lemma put_file_over_file (p : path) t t' :
  forall n,
    lookup_path n p = Some (File t) ->
    exists n',
      put_path false n p (File t') = Some n'
      /\ lookup_path n' p = Some (File t')
      /\ (forall q, q <> p -> read_file n' q = read_file n q)
      /\ (forall q, existsSync n' q = existsSync n q).
Proof.
  induction p as [|s p IH]; intros n H; simpl in H.
  - injection H as ->. exists (File t'). simpl.
    split; [reflexivity|]. split; [reflexivity|]. split.
    + intros q Hq. unfold read_file. rewrite !lookup_path_file by assumption.
      reflexivity.
    + intros [|s q]; reflexivity.
  - destruct n as [t0|es]; [discriminate|].
    destruct (es !! s) as [child|] eqn:Es; [|discriminate].
    destruct (IH child H) as (child' & Hput & Hsame & Hread & Hex).
    exists (Dir (<[s := child']> es)). simpl. rewrite Es, Hput.
    split; [reflexivity|]. rewrite lookup_insert_eq.
    split; [assumption|]. split.
    + intros [|s' q] Hq; [reflexivity|]. unfold read_file. simpl.
      destruct (decide (s = s')) as [<-|Hs].
      * rewrite lookup_insert_eq, Es. apply Hread. congruence.
      * rewrite lookup_insert_ne by assumption. reflexivity.
    + intros [|s' q]; [reflexivity|]. unfold existsSync. simpl.
      destruct (decide (s = s')) as [<-|Hs].
      * rewrite lookup_insert_eq, Es. apply Hex.
      * rewrite lookup_insert_ne by assumption. reflexivity.
Qed.

Lemma existsSync_false root p :
  existsSync root p = false <-> lookup_path root p = None.
Proof.
  unfold existsSync. destruct (lookup_path root p); split; congruence.
Qed.

Lemma existsSync_false_not_root root p : existsSync root p = false -> p <> [].
Proof. intros H ->. discriminate H. Qed.

End FsFacts.

(** ** JavaScript objects *)

Section ObjectFacts.

Variables (k : jsstring) (v : json).

Lemma get_set_prop_same fields : get_prop k (set_prop k v fields) = Some v.
Proof.
  induction fields as [|[k' v'] rest IH]; simpl.
  - rewrite decide_True by reflexivity. reflexivity.
  - destruct (decide (k' = k)) as [->|Hk]; simpl.
    + rewrite decide_True by reflexivity. reflexivity.
    + rewrite decide_False by assumption. exact IH.
Qed.

Lemma get_set_prop_other k0 fields :
  k0 <> k -> get_prop k0 (set_prop k v fields) = get_prop k0 fields.
Proof.
  intros Hk0. induction fields as [|[k' v'] rest IH]; simpl.
  - rewrite decide_False by congruence. reflexivity.
  - destruct (decide (k' = k)) as [->|Hk]; simpl.
    + rewrite !decide_False by congruence. reflexivity.
    + rewrite IH. reflexivity.
Qed.

(** The other properties, with their order, are the ones that were there. *)
Lemma set_prop_others fields :
  filter (fun f => f.1 <> k) (set_prop k v fields)
  = filter (fun f => f.1 <> k) fields.
Proof.
  induction fields as [|[k' v'] rest IH]; simpl.
  - rewrite filter_cons_False by (simpl; intros H; apply H; reflexivity).
    reflexivity.
  - destruct (decide (k' = k)) as [->|Hk].
    + rewrite !filter_cons_False by (simpl; intros H; apply H; reflexivity).
      reflexivity.
    + rewrite !filter_cons_True by (simpl; assumption). rewrite IH. reflexivity.
Qed.

End ObjectFacts.

(** ** The steps of the main flow *)

Ltac run_step :=
  unfold copyTemplate, updatePackageJson, installDependencies, readJSON,
    writeJSON, copy, remove, spawn_npm_install, assign_name, askForOptions,
    printWelcome, printCompletion, try_catch, bind, print, emit, get_fs,
    set_fs, get_destDir, set_destDir, set_finalDirName, ret, throw, exit;
  cbn [st_fs st_trace var_destDir var_finalDirName].

Ltac state_simpl := cbn [st_fs st_trace var_destDir var_finalDirName].

Section Steps.

Variable env : Env.

Lemma copyTemplate_done src dest st tree root1 :
  copy_result env = CopyDone ->
  lookup_path (st_fs st) src = Some tree ->
  lookup_path (st_fs st) dest = None ->
  put_path true (st_fs st) dest tree = Some root1 ->
  copyTemplate env src dest st
  = (Ret tt,
     mkState root1
       (st_trace st ++ [Print MsgCreating; Copy src dest; Print MsgCreated])
       (var_destDir st) (var_finalDirName st)).
Proof.
  intros Hc Hsrc Hdest Hput. run_step.
  rewrite Hsrc, Hc, Hdest, Hput. state_simpl.
  rewrite <- !app_assoc. reflexivity.
Qed.

Lemma updatePackageJson_done destDir projectName st text fields :
  read_file (st_fs st) (join destDir (js "package.json")) = Some text ->
  JSON_parse env text = Some (JObj fields) ->
  write_result env = WriteDone ->
  exists root',
    updatePackageJson env destDir projectName st
    = (Ret tt,
       mkState root'
         (st_trace st ++ [ReadJSON (join destDir (js "package.json"));
                          WriteJSON (join destDir (js "package.json")) 2])
         (var_destDir st) (var_finalDirName st))
    /\ read_file root' (join destDir (js "package.json"))
       = Some (JSON_stringify env
                 (JObj (set_prop (js "name") (JStr projectName) fields)) 2)
    /\ (forall q, q <> join destDir (js "package.json") ->
                  read_file root' q = read_file (st_fs st) q)
    /\ (forall q, existsSync root' q = existsSync (st_fs st) q).
Proof.
  intros Hread Hparse Hwrite.
  set (file := join destDir (js "package.json")) in *.
  assert (Hfile : lookup_path (st_fs st) file = Some (File text)).
  { unfold read_file in Hread.
    destruct (lookup_path (st_fs st) file) as [[t|es]|]; congruence. }
  destruct (put_file_over_file file text
              (JSON_stringify env
                 (JObj (set_prop (js "name") (JStr projectName) fields)) 2)
              (st_fs st) Hfile) as (root' & Hput & Hsame & Hother & Hex).
  exists root'. split; [|split; [|split]]; try assumption.
  - run_step. fold file. rewrite Hread, Hparse. state_simpl.
    rewrite Hfile, Hwrite, Hput. cbn. rewrite <- !app_assoc. reflexivity.
  - unfold read_file. rewrite Hsame. reflexivity.
Qed.

Lemma installDependencies_failed destDir st root' code :
  npm_install env (st_fs st) destDir = (root', code) ->
  code <> Some 0%Z ->
  installDependencies env destDir st
  = (Throw (InstallError code),
     mkState root'
       (st_trace st ++ [Print MsgInstalling; Spawn destDir;
                        Print (MsgInstallFailed (InstallError code))])
       (var_destDir st) (var_finalDirName st)).
Proof.
  intros Hnpm Hcode. run_step. rewrite Hnpm. state_simpl.
  destruct code as [[| |]|]; try congruence; state_simpl;
    rewrite <- !app_assoc; reflexivity.
Qed.

End Steps.

(** ** The main flow *)

Section MainFlow.

Variable env : Env.

(** The steps leave the variables of [main] alone. *)
Lemma copyTemplate_frame src dest st o st' :
  copyTemplate env src dest st = (o, st') ->
  var_destDir st' = var_destDir st.
Proof.
  run_step. intros H. repeat case_match; simplify_eq; reflexivity.
Qed.

Lemma updatePackageJson_frame destDir projectName st o st' :
  updatePackageJson env destDir projectName st = (o, st') ->
  var_destDir st' = var_destDir st.
Proof.
  run_step. intros H. repeat case_match; simplify_eq; reflexivity.
Qed.

(** C3: when the resolved destination already exists at the existence check,
    the process ends with code 1; the file system is what it was, and the
    only things done are the welcome line, the prompt and the error line: no
    copy, no manifest read or write, no installer, no removal. *)
Theorem run_destination_exists st name install d :
  falsy (argv2 env) = false ->
  ask_name isValidPackageName
    (toValidPackageName (unicode_lower env) (default [] (argv2 env)))
    (name_replies env) = Some name ->
  ask_confirm true (confirm_reply env) = Some install ->
  packageNameToDirName name = Some d ->
  existsSync (st_fs st) (resolve env (cwd env) d) = true ->
  run env st
  = (1%Z,
     mkState (st_fs st)
       (st_trace st
        ++ [Print MsgWelcome;
            Prompt (toValidPackageName (unicode_lower env)
                      (default [] (argv2 env)));
            Print (MsgDirExists d)])
       (Some (resolve env (cwd env) d)) (Some d)).
Proof.
  intros Hargv Hname Hconfirm Hdir Hex.
  unfold run, main, askForOptions, printWelcome, try_catch, bind, print, emit,
    get_fs, set_destDir, set_finalDirName, ret, exit, throw.
  state_simpl. rewrite Hargv. state_simpl. rewrite Hname, Hconfirm.
  state_simpl. cbn [packageName installDeps]. rewrite Hdir. state_simpl.
  rewrite Hex. state_simpl. cbn [default].
  rewrite <- !app_assoc. reflexivity.
Qed.

(** C2: when the copy step and the patch step succeed and the installer
    closes with a code other than 0, the process ends with code 1, and, the
    removal itself not failing, nothing is left at or below the destination. *)
Theorem run_install_failure st name d st2 st3 root4 code :
  falsy (argv2 env) = false ->
  ask_name isValidPackageName
    (toValidPackageName (unicode_lower env) (default [] (argv2 env)))
    (name_replies env) = Some name ->
  ask_confirm true (confirm_reply env) = Some true ->
  packageNameToDirName name = Some d ->
  existsSync (st_fs st) (resolve env (cwd env) d) = false ->
  copyTemplate env (join (install_dir env) (js "template"))
    (resolve env (cwd env) d)
    (mkState (st_fs st)
       (st_trace st
        ++ [Print MsgWelcome;
            Prompt (toValidPackageName (unicode_lower env)
                      (default [] (argv2 env)))])
       (Some (resolve env (cwd env) d)) (Some d))
  = (Ret tt, st2) ->
  updatePackageJson env (resolve env (cwd env) d) name st2 = (Ret tt, st3) ->
  npm_install env (st_fs st3) (resolve env (cwd env) d) = (root4, code) ->
  code <> Some 0%Z ->
  fst (run env st) = 1%Z
  /\ (remove_result env = RemoveDone ->
      forall q, resolve env (cwd env) d `prefix_of` q ->
                lookup_path (st_fs (snd (run env st))) q = None).
Proof.
  intros Hargv Hname Hconfirm Hdir Hex Hcopy Hpatch Hnpm Hcode.
  set (dest := resolve env (cwd env) d) in *.
  assert (Hdest : dest <> []) by (eapply existsSync_false_not_root, Hex).
  assert (Hvar : var_destDir st3 = Some dest).
  { rewrite (updatePackageJson_frame _ _ _ _ _ Hpatch).
    rewrite (copyTemplate_frame _ _ _ _ _ Hcopy). reflexivity. }
  unfold run, main, askForOptions, printWelcome, try_catch, bind, print, emit,
    get_fs, get_destDir, set_destDir, set_finalDirName, ret, exit, throw.
  state_simpl. rewrite Hargv. state_simpl. rewrite Hname, Hconfirm.
  state_simpl. cbn [packageName installDeps]. rewrite Hdir. state_simpl.
  fold dest. rewrite Hex. state_simpl.
  rewrite <- !app_assoc. cbn [app]. rewrite Hcopy, Hpatch.
  rewrite (installDependencies_failed env dest st3 root4 code Hnpm Hcode).
  state_simpl. rewrite Hvar.
  destruct (existsSync root4 dest) eqn:Hex4.
  - unfold remove, bind, emit, get_fs, set_fs, throw. state_simpl.
    destruct (remove_result env) as [|residue] eqn:Hrm.
    + state_simpl. split; [reflexivity|]. intros _ q Hq.
      cbn [snd st_fs]. eapply lookup_path_none_below; [|exact Hq].
      apply lookup_remove_path; [exact Hdest|].
      unfold existsSync in Hex4. destruct (lookup_path root4 dest); congruence.
    + split; [|discriminate].
      destruct (put_path false (remove_path root4 dest) dest residue);
        reflexivity.
  - split; [reflexivity|]. intros _ q Hq. cbn [snd st_fs].
    eapply lookup_path_none_below; [|exact Hq].
    apply existsSync_false, Hex4.
Qed.

(** C8: when [package.json] in the destination parses as an object, the
    patch step succeeds; the file then holds the 2-space serialization of the
    object whose [name] is the project name and whose other properties are
    the parsed ones, and every other file and entry is as before. *)
Theorem updatePackageJson_sets_name destDir projectName st text fields :
  read_file (st_fs st) (join destDir (js "package.json")) = Some text ->
  JSON_parse env text = Some (JObj fields) ->
  write_result env = WriteDone ->
  exists st' fields',
    updatePackageJson env destDir projectName st = (Ret tt, st')
    /\ read_file (st_fs st') (join destDir (js "package.json"))
       = Some (JSON_stringify env (JObj fields') 2)
    /\ get_prop (js "name") fields' = Some (JStr projectName)
    /\ (forall k, k <> js "name" -> get_prop k fields' = get_prop k fields)
    /\ filter (fun f => f.1 <> js "name") fields'
       = filter (fun f => f.1 <> js "name") fields
    /\ (forall q, q <> join destDir (js "package.json") ->
                  read_file (st_fs st') q = read_file (st_fs st) q)
    /\ (forall q, existsSync (st_fs st') q = existsSync (st_fs st) q)
    /\ st_trace st'
       = st_trace st ++ [ReadJSON (join destDir (js "package.json"));
                         WriteJSON (join destDir (js "package.json")) 2].
Proof.
  intros Hread Hparse Hwrite.
  destruct (updatePackageJson_done env destDir projectName st text fields
              Hread Hparse Hwrite) as (root' & Hrun & Hfile & Hother & Hex).
  eexists _, (set_prop (js "name") (JStr projectName) fields).
  split; [exact Hrun|]. state_simpl.
  split; [exact Hfile|].
  split; [apply get_set_prop_same|].
  split; [intros k Hk; apply get_set_prop_other, Hk|].
  split; [apply set_prop_others|].
  split; [exact Hother|]. split; [exact Hex | reflexivity].
Qed.

End MainFlow.

Section Runs.

Lemma run_destination_exists_witness :
  run Demo.env (start Demo.root_taken)
  = (1%Z,
     mkState Demo.root_taken
       [Print MsgWelcome; Prompt (js "my-cool-app");
        Print (MsgDirExists (js "my-cool-app"))]
       (Some [js "work"; js "my-cool-app"]) (Some (js "my-cool-app"))).
Proof.
  apply (run_destination_exists Demo.env (start Demo.root_taken)
           (js "my-cool-app") true (js "my-cool-app"));
    vm_compute; reflexivity.
Defined.

Lemma run_install_failure_witness :
  fst (run Demo.env (start Demo.root)) = 1%Z
  /\ (remove_result Demo.env = RemoveDone ->
      forall q, [js "work"; js "my-cool-app"] `prefix_of` q ->
                lookup_path (st_fs (snd (run Demo.env (start Demo.root)))) q
                = None).
Proof.
  apply (run_install_failure Demo.env (start Demo.root)
           (js "my-cool-app") (js "my-cool-app")
           Demo.after_copy Demo.after_patch
           (st_fs Demo.after_patch) (Some 1%Z));
    try (vm_compute; reflexivity).
  discriminate.
Defined.

Lemma updatePackageJson_sets_name_witness :
  exists st' fields',
    updatePackageJson Demo.env [js "app"; js "template"] (js "@acme/widget")
      (start Demo.root) = (Ret tt, st')
    /\ read_file (st_fs st') [js "app"; js "template"; js "package.json"]
       = Some (Demo.stringify (JObj fields') 2)
    /\ get_prop (js "name") fields' = Some (JStr (js "@acme/widget"))
    /\ (forall k, k <> js "name" ->
                  get_prop k fields' = get_prop k [(js "name", JStr (js "template")); (js "version", JStr (js "1.0.0"))])
    /\ filter (fun f => f.1 <> js "name") fields'
       = [(js "version", JStr (js "1.0.0"))]
    /\ (forall q, q <> [js "app"; js "template"; js "package.json"] ->
                  read_file (st_fs st') q = read_file Demo.root q)
    /\ (forall q, existsSync (st_fs st') q = existsSync Demo.root q)
    /\ st_trace st'
       = [ReadJSON [js "app"; js "template"; js "package.json"];
          WriteJSON [js "app"; js "template"; js "package.json"] 2].
Proof.
  apply (updatePackageJson_sets_name Demo.env [js "app"; js "template"]
           (js "@acme/widget") (start Demo.root) Demo.manifest_text
           [(js "name", JStr (js "template"));
            (js "version", JStr (js "1.0.0"))]);
    vm_compute; reflexivity.
Defined.

End Runs.

(** ** Further properties of the name functions *)

Section NameFacts.

Lemma name_tail_plain c :
  name_tail c = true -> is_upper c = false /\ is_space c = false.
Proof. split; char_lia. Qed.

Lemma scope_tail_plain c :
  scope_tail c = true -> is_upper c = false /\ is_space c = false.
Proof. split; char_lia. Qed.

Lemma take_while_all_in (p : char -> bool) s : all_in p (take_while p s).
Proof.
  induction s as [|c s IH]; simpl; [constructor|].
  destruct (p c) eqn:Hc; constructor; assumption.
Qed.

Lemma drop_while_all (p : char -> bool) s : all_in p s -> drop_while p s = [].
Proof.
  intros H. induction H as [|c s Hc _ IH]; simpl; [reflexivity|].
  rewrite Hc. exact IH.
Qed.

(** X1: a name the validator accepts is not empty, has no uppercase letter
    and no whitespace, and does not start with a dot or an underscore. *)
Theorem isValidPackageName_shape name :
  isValidPackageName name = true ->
  name <> []
  /\ Forall (fun c => is_upper c = false /\ is_space c = false) name
  /\ head name <> Some ch_dot /\ head name <> Some ch_underscore.
Proof.
  intros H. apply isValidPackageName_grammar in H.
  assert (Hseg : forall n, name_segment n ->
            Forall (fun c => is_upper c = false /\ is_space c = false) n).
  { intros n (c & rest & -> & Hc & Hr). constructor.
    - apply name_tail_plain, name_head_tail, Hc.
    - eapply List.Forall_impl; [|exact Hr]. apply name_tail_plain. }
  destruct H as [H|(sc & n & -> & (c & rest & -> & Hc & Hr) & Hn)].
  - split; [|split; [apply Hseg, H|]];
      destruct H as (c & rest & -> & Hc & _);
      [discriminate | split; intros E; injection E as ->; discriminate Hc].
  - split; [discriminate|]. split; [|split; discriminate].
    constructor; [split; reflexivity|].
    apply Forall_app. split.
    + constructor; [apply scope_tail_plain, scope_head_tail, Hc|].
      eapply List.Forall_impl; [|exact Hr]. apply scope_tail_plain.
    + constructor; [split; reflexivity | apply Hseg, Hn].
Qed.

Lemma isValidPackageName_shape_witness :
  js "@acme/widget" <> []
  /\ Forall (fun c => is_upper c = false /\ is_space c = false)
       (js "@acme/widget")
  /\ head (js "@acme/widget") <> Some ch_dot
  /\ head (js "@acme/widget") <> Some ch_underscore.
Proof. apply isValidPackageName_shape. reflexivity. Defined.

(** X2: a name the validator accepts contains a slash exactly when it starts
    with an at sign, and then it contains exactly one slash. *)
Theorem isValidPackageName_scoped name :
  isValidPackageName name = true ->
  (includes ch_slash name = true <-> head name = Some ch_at)
  /\ (occurrences ch_slash name <= 1)%nat.
Proof.
  intros H. apply isValidPackageName_grammar in H.
  assert (Hocc : forall s, all_in no_slash s -> occurrences ch_slash s = 0%nat).
  { intros s Hs. unfold occurrences.
    induction Hs as [|c s Hc _ IH]; simpl; [reflexivity|].
    unfold no_slash, other_than in Hc. apply negb_true_iff in Hc.
    rewrite Hc. exact IH. }
  destruct H as [H|(sc & n & -> & Hsc & Hn)].
  - pose proof (name_segment_no_slash _ H) as Hns.
    rewrite (Hocc _ Hns). split; [|lia].
    apply includes_false in Hns. rewrite Hns.
    destruct H as (c & rest & -> & Hc & _). simpl.
    split; [discriminate|]. intros E. injection E as ->. discriminate Hc.
  - split.
    + change (ch_at :: sc ++ ch_slash :: n)
        with ((ch_at :: sc) ++ ch_slash :: n).
      rewrite includes_app. split; reflexivity.
    + unfold occurrences. simpl. rewrite List.filter_app. simpl.
      rewrite length_app. simpl.
      fold (occurrences ch_slash sc). fold (occurrences ch_slash n).
      rewrite (Hocc _ (scope_segment_no_slash _ Hsc)).
      rewrite (Hocc _ (name_segment_no_slash _ Hn)). lia.
Qed.

Lemma isValidPackageName_scoped_witness :
  (includes ch_slash (js "@acme/widget") = true
   <-> head (js "@acme/widget") = Some ch_at)
  /\ (occurrences ch_slash (js "@acme/widget") <= 1)%nat.
Proof. apply isValidPackageName_scoped. reflexivity. Defined.

(** X3: a normalized name passes the validator exactly when it is not
    empty. *)
Theorem toValidPackageName_valid_iff ul s :
  isValidPackageName (toValidPackageName ul s) = true
  <-> toValidPackageName ul s <> [].
Proof.
  split.
  - intros H E. rewrite E in H. discriminate H.
  - intros H. apply name_head_string_valid;
      [exact H | apply toValidPackageName_name_head].
Qed.

(** X4: an input made of whitespace only (the empty input included)
    normalizes to the empty string, which the validator rejects. *)
Theorem toValidPackageName_blank ul s :
  all_in is_space s ->
  toValidPackageName ul s = []
  /\ isValidPackageName (toValidPackageName ul s) = false.
Proof.
  intros H.
  assert (E : toValidPackageName ul s = []).
  { unfold toValidPackageName, trim, trimStart, trimEnd.
    rewrite (drop_while_all is_space s H). reflexivity. }
  rewrite E. split; reflexivity.
Qed.

Lemma toValidPackageName_blank_witness :
  toValidPackageName Demo.ul_id (js "   ") = []
  /\ isValidPackageName (toValidPackageName Demo.ul_id (js "   ")) = false.
Proof.
  apply toValidPackageName_blank. repeat constructor.
Defined.

(** X5: the names the normalizer leaves unchanged are exactly the strings
    over [[a-z0-9-~]]. *)
Theorem toValidPackageName_fixed_points ul s :
  toValidPackageName ul s = s <-> all_in name_head s.
Proof.
  split.
  - intros E. rewrite <- E. apply toValidPackageName_name_head.
  - apply toValidPackageName_fixes.
Qed.

(** X6: [packageNameToDirName] never yields [undefined]; its result has no
    slash, and applying it to its own result changes nothing. *)
Theorem packageNameToDirName_defined name :
  exists d,
    packageNameToDirName name = Some d
    /\ all_in no_slash d
    /\ packageNameToDirName d = Some d.
Proof.
  destruct (includes ch_slash name) eqn:Hi.
  - destruct (includes_split ch_slash name Hi) as (a & b & -> & Ha).
    exists (take_while no_slash b).
    split; [apply packageNameToDirName_slash, Ha|].
    split; [apply take_while_all_in|].
    apply packageNameToDirName_plain, take_while_all_in.
  - apply includes_false in Hi. exists name.
    split; [apply packageNameToDirName_plain, Hi|].
    split; [exact Hi | apply packageNameToDirName_plain, Hi].
Qed.

(** X7: a normalized name is its own directory name. *)
Theorem packageNameToDirName_toValidPackageName ul s :
  packageNameToDirName (toValidPackageName ul s)
  = Some (toValidPackageName ul s).
Proof.
  apply packageNameToDirName_plain.
  eapply List.Forall_impl; [|apply toValidPackageName_name_head].
  intros c Hc. apply name_tail_no_slash, name_head_tail, Hc.
Qed.

(** X8: splitting at a separator and joining the pieces with it gives the
    string back; no piece contains the separator, and there is one more
    piece than there are separators. *)
Theorem split_join k s :
  join_pieces k (split k s) = s
  /\ Forall (all_in (other_than k)) (split k s)
  /\ length (split k s) = S (occurrences k s).
Proof.
  unfold occurrences. induction s as [|c s (IHj & IHp & IHl)]; simpl.
  - split; [reflexivity|]. split; [repeat constructor | reflexivity].
  - destruct (is_char k c) eqn:Hc.
    + assert (c = k) as -> by (apply N.eqb_eq, Hc).
      destruct (split k s) as [|piece rest] eqn:Es; [discriminate IHl|].
      simpl in *. rewrite IHj, IHl.
      split; [reflexivity|]. split; [|reflexivity].
      constructor; [constructor | exact IHp].
    + destruct (split k s) as [|piece rest] eqn:Es; [discriminate IHl|].
      apply List.Forall_cons_iff in IHp as [Hpiece Hrest].
      split; [|split].
      * destruct rest; simpl in *; rewrite <- IHj; reflexivity.
      * constructor; [|exact Hrest].
        constructor; [|exact Hpiece].
        unfold other_than. rewrite Hc. reflexivity.
      * exact IHl.
Qed.

End NameFacts.

(** ** Further properties of the steps *)

Ltac state_simpl_in H :=
  cbn [st_fs st_trace var_destDir var_finalDirName] in H.

Section StepFacts.

Variable env : Env.

Lemma lookup_path_app (p q : path) :
  forall n,
    lookup_path n (p ++ q)
    = match lookup_path n p with
      | Some m => lookup_path m q
      | None => None
      end.
Proof.
  induction p as [|s p IH]; intros n; simpl; [reflexivity|].
  destruct n as [t|es]; [reflexivity|].
  destruct (es !! s); [apply IH | reflexivity].
Qed.

(** What [put_path] places at [p] is what is found there afterwards. *)
Lemma put_path_lookup mk (p : path) new :
  forall n n',
    put_path mk n p new = Some n' ->
    forall q, lookup_path n' (p ++ q) = lookup_path new q.
Proof.
  induction p as [|s p IH]; intros n n' H q; simpl in H.
  - injection H as ->. reflexivity.
  - destruct n as [t|es]; [discriminate|].
    destruct (es !! s) as [child|] eqn:Es.
    + destruct (put_path mk child p new) as [child'|] eqn:Hp; [|discriminate].
      injection H as <-. simpl. rewrite lookup_insert_eq. eapply IH, Hp.
    + destruct (mk || bool_decide (p = [])); [|discriminate].
      destruct (put_path mk (Dir ∅) p new) as [child'|] eqn:Hp; [|discriminate].
      injection H as <-. simpl. rewrite lookup_insert_eq. eapply IH, Hp.
Qed.

(** Entries that are neither above nor below [p] are left as they were. *)
Lemma put_path_frame mk (p : path) new :
  forall n n',
    put_path mk n p new = Some n' ->
    forall q, ~ p `prefix_of` q -> ~ q `prefix_of` p ->
              lookup_path n' q = lookup_path n q.
Proof.
  induction p as [|s p IH]; intros n n' H q Hpq Hqp; simpl in H.
  - destruct Hpq. apply prefix_nil.
  - destruct q as [|s' q]; [destruct Hqp; apply prefix_nil|].
    destruct n as [t|es]; [discriminate|].
    assert (Hsub : s = s' -> ~ p `prefix_of` q /\ ~ q `prefix_of` p).
    { intros <-. split; intros Hp; [apply Hpq | apply Hqp];
        apply prefix_cons, Hp. }
    destruct (es !! s) as [child|] eqn:Es.
    + destruct (put_path mk child p new) as [child'|] eqn:Hp; [|discriminate].
      injection H as <-. simpl.
      destruct (decide (s = s')) as [E|E].
      * destruct (Hsub E) as [H1 H2]. subst s'.
        rewrite lookup_insert_eq, Es. eapply IH; eassumption.
      * rewrite lookup_insert_ne by assumption. reflexivity.
    + destruct (mk || bool_decide (p = [])); [|discriminate].
      destruct (put_path mk (Dir ∅) p new) as [child'|] eqn:Hp; [|discriminate].
      injection H as <-. simpl.
      destruct (decide (s = s')) as [E|E].
      * destruct (Hsub E) as [H1 H2]. subst s'.
        rewrite lookup_insert_eq, Es.
        rewrite (IH _ _ Hp q H1 H2).
        destruct q as [|s'' q]; [destruct H2; apply prefix_nil|].
        simpl. rewrite lookup_empty. reflexivity.
      * rewrite lookup_insert_ne by assumption. reflexivity.
Qed.

(** X9: when [copyTemplate] returns onto a destination that did not exist,
    the destination holds a copy of the whole tree found at the source, and
    every entry that is neither above nor below the destination is as it
    was. *)
Theorem copyTemplate_copies_tree src dest st st' :
  lookup_path (st_fs st) dest = None ->
  copyTemplate env src dest st = (Ret tt, st') ->
  exists tree,
    lookup_path (st_fs st) src = Some tree
    /\ (forall q, lookup_path (st_fs st') (dest ++ q) = lookup_path tree q)
    /\ (forall q, ~ dest `prefix_of` q -> ~ q `prefix_of` dest ->
                  lookup_path (st_fs st') q = lookup_path (st_fs st) q).
Proof.
  intros Hdest. run_step. rewrite Hdest. intros H.
  destruct (lookup_path (st_fs st) src) as [tree|] eqn:Hsrc;
    [|state_simpl_in H; discriminate].
  exists tree. split; [reflexivity|].
  destruct (copy_result env) as [|[residue|]].
  - destruct (put_path true (st_fs st) dest tree) as [root1|] eqn:Hput;
      state_simpl_in H; [|discriminate].
    injection H as <-. state_simpl.
    split; [eapply put_path_lookup, Hput | eapply put_path_frame, Hput].
  - destruct (put_path true (st_fs st) dest residue);
      state_simpl_in H; discriminate.
  - state_simpl_in H. discriminate.
Qed.

(** [copyTemplate] passes a failure of the copy on to its caller as a
    throw, and never ends the process itself. *)
Lemma copyTemplate_outcome src dest st :
  (exists st', copyTemplate env src dest st = (Ret tt, st'))
  \/ (exists st', copyTemplate env src dest st = (Throw IOError, st')).
Proof.
  run_step. repeat case_match; simplify_eq; eauto.
Qed.

(** X11: [installDependencies] returns exactly when the installer closes
    with code 0; with any other code, or none, it throws the error that
    carries the code.  The file system is then what the installer left. *)
Theorem installDependencies_outcome destDir st :
  let result := npm_install env (st_fs st) destDir in
  (installDependencies env destDir st).1
  = (if decide (result.2 = Some 0%Z) then Ret tt
     else Throw (InstallError result.2))
  /\ st_fs (installDependencies env destDir st).2 = result.1.
Proof.
  run_step. destruct (npm_install env (st_fs st) destDir) as [root' code].
  state_simpl. cbn [fst snd].
  destruct code as [[| |]|]; state_simpl; split; reflexivity.
Qed.

(** Writing over an existing file, successfully or not, touches no other
    file and ends nothing. *)
Lemma writeJSON_frame file obj spaces st text :
  lookup_path (st_fs st) file = Some (File text) ->
  (forall q, q <> file ->
     read_file (st_fs (writeJSON env file obj spaces st).2) q
     = read_file (st_fs st) q)
  /\ (forall q, existsSync (st_fs (writeJSON env file obj spaces st).2) q
                = existsSync (st_fs st) q)
  /\ (forall code, (writeJSON env file obj spaces st).1 <> Exit code).
Proof.
  intros Hfile. run_step. rewrite Hfile.
  destruct (write_result env) as [|[partial|]].
  - destruct (put_file_over_file file text (JSON_stringify env obj spaces)
                (st_fs st) Hfile) as (root' & -> & _ & Hother & Hex).
    state_simpl. repeat split; try assumption; discriminate.
  - destruct (put_file_over_file file text partial
                (st_fs st) Hfile) as (root' & -> & _ & Hother & Hex).
    state_simpl. repeat split; try assumption; discriminate.
  - state_simpl. repeat split; discriminate.
Qed.

(** X12: whatever [updatePackageJson] does, no file other than the
    manifest changes, no entry appears or disappears, and the process is not
    ended. *)
Theorem updatePackageJson_touches_only_manifest destDir projectName st :
  (forall q, q <> join destDir (js "package.json") ->
     read_file (st_fs (updatePackageJson env destDir projectName st).2) q
     = read_file (st_fs st) q)
  /\ (forall q,
        existsSync (st_fs (updatePackageJson env destDir projectName st).2) q
        = existsSync (st_fs st) q)
  /\ (forall code,
        (updatePackageJson env destDir projectName st).1 <> Exit code).
Proof.
  set (file := join destDir (js "package.json")).
  unfold updatePackageJson, readJSON, assign_name, bind, emit, get_fs, ret,
    throw.
  state_simpl. fold file.
  destruct (read_file (st_fs st) file) as [text|] eqn:Hread;
    [|state_simpl; repeat split; discriminate].
  assert (Hfile : lookup_path (st_fs st) file = Some (File text)).
  { unfold read_file in Hread.
    destruct (lookup_path (st_fs st) file) as [[t|es]|]; congruence. }
  destruct (JSON_parse env text) as [v|];
    [|state_simpl; repeat split; discriminate].
  destruct v; state_simpl; try (repeat split; discriminate);
    apply (writeJSON_frame file _ 2
             (mkState (st_fs st) (st_trace st ++ [ReadJSON file])
                (var_destDir st) (var_finalDirName st)) text Hfile).
Qed.

End StepFacts.

Lemma updatePackageJson_touches_only_manifest_witness :
  read_file
    (st_fs (updatePackageJson Demo.env [js "app"; js "template"]
              (js "widget") (start Demo.root)).2)
    [js "work"]
  = read_file (st_fs (start Demo.root)) [js "work"].
Proof.
  apply (proj1 (updatePackageJson_touches_only_manifest Demo.env
                  [js "app"; js "template"] (js "widget") (start Demo.root))).
  discriminate.
Defined.

(** ** Further properties of the main flow *)

Ltac run_main :=
  unfold run, main, askForOptions, printWelcome, try_catch, bind, print, emit,
    get_fs, get_destDir, set_destDir, set_finalDirName, ret, exit, throw;
  cbn [st_fs st_trace var_destDir var_finalDirName].

Section FlowFacts.

Variable env : Env.

Lemma ask_name_valid validate initial replies name :
  ask_name validate initial replies = Some name -> validate name = true.
Proof.
  induction replies as [|[given| |] rest IH]; simpl; try discriminate.
  - destruct (validate given) eqn:Hv; [|exact IH].
    intros E. injection E as <-. exact Hv.
  - destruct (validate initial) eqn:Hv; [|exact IH].
    intros E. injection E as <-. exact Hv.
Qed.

(** X13: the options [askForOptions] returns carry a name that passes the
    validator, however many invalid answers came first; asking changes no
    file. *)
Theorem askForOptions_valid targetDir st options st' :
  askForOptions env targetDir st = (Ret options, st') ->
  isValidPackageName (packageName options) = true
  /\ st_fs st' = st_fs st.
Proof.
  run_step.
  destruct (ask_name isValidPackageName
              (toValidPackageName (unicode_lower env) targetDir)
              (name_replies env)) as [name|] eqn:Hname;
    [|state_simpl; discriminate].
  destruct (ask_confirm true (confirm_reply env)) as [install|];
    state_simpl; [|discriminate].
  intros E. injection E as <- <-.
  split; [eapply ask_name_valid, Hname | reflexivity].
Qed.

Lemma installDependencies_frame destDir st o st' :
  installDependencies env destDir st = (o, st') ->
  var_destDir st' = var_destDir st /\ forall code, o <> Exit code.
Proof.
  run_step. destruct (npm_install env (st_fs st) destDir) as [root' code].
  state_simpl. intros H.
  destruct code as [[| |]|]; state_simpl_in H; injection H as <- <-;
    split; try reflexivity; discriminate.
Qed.

Lemma installDependencies_fs destDir st :
  st_fs (installDependencies env destDir st).2
  = (npm_install env (st_fs st) destDir).1.
Proof.
  run_step. destruct (npm_install env (st_fs st) destDir) as [root' code].
  state_simpl. destruct code as [[| |]|]; reflexivity.
Qed.

Lemma copyTemplate_no_exit src dest st code st' :
  copyTemplate env src dest st <> (Exit code, st').
Proof.
  destruct (copyTemplate_outcome env src dest st) as [[s ->]|[s ->]];
    discriminate.
Qed.

Lemma updatePackageJson_no_exit destDir projectName st code st' :
  updatePackageJson env destDir projectName st <> (Exit code, st').
Proof.
  run_step. intros H. repeat case_match; simplify_eq.
Qed.

Lemma printCompletion_returns targetDir install st :
  printCompletion targetDir install st
  = (Ret tt,
     mkState (st_fs st)
       (st_trace st
        ++ [Print MsgDone; Print (MsgCd targetDir)]
        ++ (if install then [] else [Print MsgNpmInstall])
        ++ [Print MsgNpmRunDev; Print MsgNpmRunBuild])
       (var_destDir st) (var_finalDirName st)).
Proof.
  run_step. destruct install; cbn [negb]; state_simpl;
    rewrite <- !app_assoc; reflexivity.
Qed.

(** X14: without a first argument (absent or empty) the process ends with
    code 1 after the welcome and usage lines; nothing is asked and no file
    is touched. *)
Theorem run_missing_argument st :
  falsy (argv2 env) = true ->
  run env st
  = (1%Z,
     mkState (st_fs st) (st_trace st ++ [Print MsgWelcome; Print MsgUsage])
       (var_destDir st) (var_finalDirName st)).
Proof.
  intros H. run_main. rewrite H. state_simpl.
  rewrite <- !app_assoc. reflexivity.
Qed.

(** X15: when the prompt session is aborted, at either question, the
    process ends with code 1; no file is touched and nothing is removed,
    since no destination was computed yet. *)
Theorem run_prompt_aborted st :
  falsy (argv2 env) = false ->
  ask_name isValidPackageName
    (toValidPackageName (unicode_lower env) (default [] (argv2 env)))
    (name_replies env) = None
  \/ ask_confirm true (confirm_reply env) = None ->
  run env st
  = (1%Z,
     mkState (st_fs st)
       (st_trace st
        ++ [Print MsgWelcome;
            Prompt (toValidPackageName (unicode_lower env)
                      (default [] (argv2 env)));
            Print (MsgFailed PromptAborted)])
       None None).
Proof.
  intros Hargv H. run_main. rewrite Hargv. state_simpl.
  destruct H as [H|H].
  - rewrite H. state_simpl. rewrite <- !app_assoc. reflexivity.
  - rewrite H.
    destruct (ask_name _ _ _); state_simpl; rewrite <- !app_assoc; reflexivity.
Qed.


Lemma prefix_snoc_cases (q l : path) x :
  q `prefix_of` l ++ [x] -> q = l ++ [x] \/ q `prefix_of` l.
Proof.
  intros [k E]. destruct k as [|y k _] using rev_ind.
  - left. rewrite app_nil_r in E. congruence.
  - right. rewrite app_assoc in E. apply app_inj_tail in E as [E _].
    exists k. exact E.
Qed.

(** Removing [p] leaves the entries that are neither above nor below it. *)
Lemma remove_path_frame (p : path) :
  forall n q, ~ p `prefix_of` q -> ~ q `prefix_of` p ->
              lookup_path (remove_path n p) q = lookup_path n q.
Proof.
  induction p as [|s p IH]; intros n q Hpq Hqp;
    [destruct Hpq; apply prefix_nil|].
  destruct q as [|s' q]; [destruct Hqp; apply prefix_nil|].
  destruct n as [t|es]; [reflexivity|].
  assert (Hsub : s = s' -> ~ p `prefix_of` q /\ ~ q `prefix_of` p).
  { intros <-. split; intros Hp; [apply Hpq | apply Hqp];
      apply prefix_cons, Hp. }
  destruct p as [|s'' p'].
  - simpl. destruct (decide (s = s')) as [E|E].
    + destruct (Hsub E) as [H1 _]. destruct H1. apply prefix_nil.
    + rewrite lookup_delete_ne by assumption. reflexivity.
  - change (lookup_path (remove_path (Dir es) (s :: s'' :: p')) (s' :: q))
      with (match alter (fun child => remove_path child (s'' :: p')) s es !! s'
            with
            | Some child => lookup_path child q
            | None => None
            end).
    change (lookup_path (Dir es) (s' :: q))
      with (match es !! s' with
            | Some child => lookup_path child q
            | None => None
            end).
    destruct (decide (s = s')) as [E|E].
    + destruct (Hsub E) as [H1 H2]. subst s'. rewrite lookup_alter_eq.
      destruct (es !! s) as [child|]; [|reflexivity].
      apply IH; assumption.
    + rewrite lookup_alter_ne by assumption. reflexivity.
Qed.

Lemma copyTemplate_elsewhere src dest st q :
  ~ dest `prefix_of` q -> ~ q `prefix_of` dest ->
  lookup_path (st_fs (copyTemplate env src dest st).2) q
  = lookup_path (st_fs st) q.
Proof.
  intros H1 H2. run_step.
  destruct (lookup_path (st_fs st) src) as [tree|]; [|reflexivity].
  destruct (copy_result env) as [|[residue|]]; [| |reflexivity].
  - destruct (match lookup_path (st_fs st) dest with
              | Some old => copy_merge env tree old
              | None => Some tree
              end) as [new|]; [|reflexivity].
    destruct (put_path true (st_fs st) dest new) as [root1|] eqn:Hput;
      [|reflexivity].
    state_simpl. cbn [snd st_fs]. eapply put_path_frame; eassumption.
  - destruct (put_path true (st_fs st) dest residue) as [root1|] eqn:Hput;
      [|reflexivity].
    state_simpl. cbn [snd st_fs]. eapply put_path_frame; eassumption.
Qed.

Lemma updatePackageJson_elsewhere destDir projectName st q :
  ~ destDir `prefix_of` q -> ~ q `prefix_of` destDir ->
  lookup_path (st_fs (updatePackageJson env destDir projectName st).2) q
  = lookup_path (st_fs st) q.
Proof.
  intros H1 H2.
  set (file := join destDir (js "package.json")).
  assert (Hf1 : ~ file `prefix_of` q).
  { intros [k E]. apply H1. exists ([js "package.json"] ++ k).
    rewrite E. unfold file, join. rewrite <- app_assoc. reflexivity. }
  assert (Hf2 : ~ q `prefix_of` file).
  { intros Hq. unfold file, join in Hq.
    destruct (prefix_snoc_cases _ _ _ Hq) as [E|Hq']; [|exact (H2 Hq')].
    apply H1. rewrite E. exists [js "package.json"]. reflexivity. }
  run_step. fold file.
  destruct (read_file (st_fs st) file) as [text|]; [|reflexivity].
  destruct (JSON_parse env text) as [v|]; [|reflexivity].
  assert (Hw : forall obj,
            lookup_path
              (st_fs (writeJSON env file obj 2
                        (mkState (st_fs st) (st_trace st ++ [ReadJSON file])
                           (var_destDir st) (var_finalDirName st))).2) q
            = lookup_path (st_fs st) q).
  { intros obj. run_step.
    destruct (lookup_path (st_fs st) file) as [[t|es]|];
      try reflexivity;
      (destruct (write_result env) as [|[partial|]]; [| |reflexivity]);
      match goal with
      | |- context [put_path false ?n ?p ?x] =>
          destruct (put_path false n p x) as [root'|] eqn:Hput;
            [|reflexivity]
      end;
      state_simpl; cbn [snd st_fs]; eapply put_path_frame; eassumption. }
  destruct v; state_simpl; try reflexivity; apply Hw.
Qed.

(** The [catch] block of [main] followed by the top-level handler, as they
    read once the sequencing is spelled out: the code is 1; after a removal
    that does not fail nothing is left at the destination; without a
    destination no file is touched. *)
Lemma catch_block e s :
  let r :=
    (let (o, s') :=
       let (o, s') :=
         match var_destDir s with
         | Some d0 =>
             if existsSync (st_fs s) d0
             then
               fun s0 =>
                 let (o, s'0) :=
                   remove env d0
                     (mkState (st_fs s0) (st_trace s0 ++ [Print MsgCleaning])
                        (var_destDir s0) (var_finalDirName s0)) in
                 match o with
                 | Ret _ =>
                     (Ret tt,
                      mkState (st_fs s'0) (st_trace s'0 ++ [Print MsgCleaned])
                        (var_destDir s'0) (var_finalDirName s'0))
                 | Throw e0 => (Throw e0, s'0)
                 | Exit c => (Exit c, s'0)
                 end
             else fun s0 => (Ret tt, s0)
         | None => fun s0 => (Ret tt, s0)
         end
           (mkState (st_fs s) (st_trace s ++ [Print (MsgFailed e)])
              (var_destDir s) (var_finalDirName s)) in
       match o with
       | Ret _ => (@Exit unit 1%Z, s')
       | Throw e0 => (Throw e0, s')
       | Exit c => (Exit c, s')
       end in
     match o with
     | Ret _ => (0%Z, s')
     | Throw e0 =>
         let (_, s'') :=
           (Ret tt,
            mkState (st_fs s') (st_trace s' ++ [Print (MsgUnexpected e0)])
              (var_destDir s') (var_finalDirName s')) in
         (1%Z, s'')
     | Exit code => (code, s')
     end) in
  r.1 = 1%Z
  /\ (forall dest,
        var_destDir s = Some dest -> dest <> [] ->
        remove_result env = RemoveDone ->
        forall q, dest `prefix_of` q -> lookup_path (st_fs r.2) q = None)
  /\ (var_destDir s = None -> st_fs r.2 = st_fs s)
  /\ (forall dest q,
        var_destDir s = Some dest ->
        ~ dest `prefix_of` q -> ~ q `prefix_of` dest ->
        lookup_path (st_fs r.2) q = lookup_path (st_fs s) q).
Proof.
  cbv zeta. destruct (var_destDir s) as [d0|].
  - destruct (existsSync (st_fs s) d0) eqn:Hex.
    + unfold remove, bind, emit, get_fs, set_fs, throw. state_simpl.
      destruct (remove_result env) as [|residue].
      * state_simpl. split; [reflexivity|].
        split; [|split; [discriminate|]].
        -- intros dest E Hdest _ q Hq. injection E as ->. cbn [snd st_fs].
           eapply lookup_path_none_below; [|exact Hq].
           apply lookup_remove_path; [exact Hdest|].
           unfold existsSync in Hex.
           destruct (lookup_path (st_fs s) dest); congruence.
        -- intros dest q E H1 H2. injection E as ->. cbn [snd st_fs].
           apply remove_path_frame; assumption.
      * destruct (put_path false _ d0 residue) as [root'|] eqn:Hput;
          state_simpl; (split; [reflexivity|]);
          (split; [discriminate|]); (split; [discriminate|]);
          intros dest q E H1 H2; injection E as ->; cbn [snd st_fs].
        -- rewrite (put_path_frame _ _ _ _ _ Hput q H1 H2).
           apply remove_path_frame; assumption.
        -- reflexivity.
    + state_simpl. split; [reflexivity|].
      split; [|split; [discriminate | reflexivity]].
      intros dest E _ _ q Hq. injection E as ->. cbn [snd st_fs].
      eapply lookup_path_none_below; [|exact Hq].
      apply existsSync_false, Hex.
  - state_simpl. split; [reflexivity|]. split; [discriminate|].
    split; [reflexivity | discriminate].
Qed.

(** X16: the process only ever ends with code 0 or code 1. *)
Theorem run_exit_code st : (run env st).1 = 0%Z \/ (run env st).1 = 1%Z.
Proof.
  run_main.
  destruct (falsy (argv2 env)); state_simpl; [right; reflexivity|].
  destruct (ask_name _ _ _) as [name|]; state_simpl; [|right; reflexivity].
  destruct (ask_confirm _ _) as [install|]; state_simpl;
    [|right; reflexivity].
  cbn [packageName installDeps].
  destruct (packageNameToDirName name) as [d|]; state_simpl;
    [|right; reflexivity].
  destruct (existsSync _ _); state_simpl; [right; reflexivity|].
  destruct (copyTemplate env _ _ _) as [[[]|e|c] st2] eqn:Hcopy;
    [|right; apply catch_block
     |destruct (copyTemplate_no_exit _ _ _ _ _ Hcopy)].
  destruct (updatePackageJson env _ _ st2) as [[[]|e|c] st3] eqn:Hpatch;
    [|right; apply catch_block
     |destruct (updatePackageJson_no_exit _ _ _ _ _ Hpatch)].
  destruct install.
  - destruct (installDependencies env _ st3) as [[[]|e|c] st4] eqn:Hinst.
    + rewrite printCompletion_returns. left; reflexivity.
    + right; apply catch_block.
    + destruct (installDependencies_frame _ _ _ _ Hinst) as [_ Hne].
      destruct (Hne c). reflexivity.
  - state_simpl. rewrite printCompletion_returns. left; reflexivity.
Qed.

(** X17: once the existence check has passed, a run that does not end with
    code 0 ends with code 1 and, the removal itself not failing, leaves
    nothing at or below the destination, whichever step failed and whatever
    it had already written. *)
Theorem run_failure_cleans_up st name install d :
  falsy (argv2 env) = false ->
  ask_name isValidPackageName
    (toValidPackageName (unicode_lower env) (default [] (argv2 env)))
    (name_replies env) = Some name ->
  ask_confirm true (confirm_reply env) = Some install ->
  packageNameToDirName name = Some d ->
  existsSync (st_fs st) (resolve env (cwd env) d) = false ->
  remove_result env = RemoveDone ->
  (run env st).1 = 0%Z
  \/ ((run env st).1 = 1%Z
      /\ forall q, resolve env (cwd env) d `prefix_of` q ->
                   lookup_path (st_fs (run env st).2) q = None).
Proof.
  intros Hargv Hname Hconfirm Hdir Hex Hrm.
  set (dest := resolve env (cwd env) d) in *.
  assert (Hdest : dest <> []) by (eapply existsSync_false_not_root, Hex).
  run_main. rewrite Hargv. state_simpl. rewrite Hname, Hconfirm.
  state_simpl. cbn [packageName installDeps]. rewrite Hdir. state_simpl.
  fold dest. rewrite Hex. state_simpl.
  destruct (copyTemplate env _ _ _) as [[[]|e|c] st2] eqn:Hcopy;
    [|assert (Hv : var_destDir st2 = Some dest)
        by (rewrite (copyTemplate_frame _ _ _ _ _ _ Hcopy); reflexivity);
      right; destruct (catch_block e st2) as (H1 & H2 & _ & _);
      split; [exact H1 | exact (H2 dest Hv Hdest Hrm)]
     |destruct (copyTemplate_no_exit _ _ _ _ _ Hcopy)].
  pose proof (copyTemplate_frame _ _ _ _ _ _ Hcopy) as Hv2.
  state_simpl_in Hv2.
  destruct (updatePackageJson env _ _ st2) as [[[]|e|c] st3] eqn:Hpatch;
    [|assert (Hv : var_destDir st3 = Some dest)
        by (rewrite (updatePackageJson_frame _ _ _ _ _ _ Hpatch); exact Hv2);
      right; destruct (catch_block e st3) as (H1 & H2 & _ & _);
      split; [exact H1 | exact (H2 dest Hv Hdest Hrm)]
     |destruct (updatePackageJson_no_exit _ _ _ _ _ Hpatch)].
  pose proof (updatePackageJson_frame _ _ _ _ _ _ Hpatch) as Hv3.
  rewrite Hv2 in Hv3.
  destruct install.
  - destruct (installDependencies env _ st3) as [[[]|e|c] st4] eqn:Hinst.
    + rewrite printCompletion_returns. left; reflexivity.
    + destruct (installDependencies_frame _ _ _ _ Hinst) as [Hv4 _].
      rewrite Hv3 in Hv4.
      right; destruct (catch_block e st4) as (H1 & H2 & _ & _);
        split; [exact H1 | exact (H2 dest Hv4 Hdest Hrm)].
    + destruct (installDependencies_frame _ _ _ _ Hinst) as [_ Hne].
      destruct (Hne c). reflexivity.
  - state_simpl. rewrite printCompletion_returns. left; reflexivity.
Qed.


(** X18: when the copy and the patch succeed and the user declined the
    installation, the process ends with code 0 without spawning the
    installer, and the closing lines include the [npm install] line. *)
Theorem run_success_without_install st name d st2 st3 :
  falsy (argv2 env) = false ->
  ask_name isValidPackageName
    (toValidPackageName (unicode_lower env) (default [] (argv2 env)))
    (name_replies env) = Some name ->
  ask_confirm true (confirm_reply env) = Some false ->
  packageNameToDirName name = Some d ->
  existsSync (st_fs st) (resolve env (cwd env) d) = false ->
  copyTemplate env (join (install_dir env) (js "template"))
    (resolve env (cwd env) d)
    (mkState (st_fs st)
       (st_trace st
        ++ [Print MsgWelcome;
            Prompt (toValidPackageName (unicode_lower env)
                      (default [] (argv2 env)))])
       (Some (resolve env (cwd env) d)) (Some d))
  = (Ret tt, st2) ->
  updatePackageJson env (resolve env (cwd env) d) name st2 = (Ret tt, st3) ->
  run env st
  = (0%Z,
     mkState (st_fs st3)
       (st_trace st3
        ++ [Print MsgDone; Print (MsgCd d); Print MsgNpmInstall;
            Print MsgNpmRunDev; Print MsgNpmRunBuild])
       (var_destDir st3) (var_finalDirName st3)).
Proof.
  intros Hargv Hname Hconfirm Hdir Hex Hcopy Hpatch.
  run_main. rewrite Hargv. state_simpl. rewrite Hname, Hconfirm.
  state_simpl. cbn [packageName installDeps]. rewrite Hdir. state_simpl.
  rewrite Hex. state_simpl.
  rewrite <- !app_assoc. cbn [app]. rewrite Hcopy, Hpatch.
  state_simpl. rewrite printCompletion_returns. reflexivity.
Qed.

(** X19: when the copy and the patch succeed and the installer closes with
    code 0, the process ends with code 0, the file system is what the
    installer left, and the closing lines have no [npm install] line. *)
Theorem run_success_with_install st name d st2 st3 root4 :
  falsy (argv2 env) = false ->
  ask_name isValidPackageName
    (toValidPackageName (unicode_lower env) (default [] (argv2 env)))
    (name_replies env) = Some name ->
  ask_confirm true (confirm_reply env) = Some true ->
  packageNameToDirName name = Some d ->
  existsSync (st_fs st) (resolve env (cwd env) d) = false ->
  copyTemplate env (join (install_dir env) (js "template"))
    (resolve env (cwd env) d)
    (mkState (st_fs st)
       (st_trace st
        ++ [Print MsgWelcome;
            Prompt (toValidPackageName (unicode_lower env)
                      (default [] (argv2 env)))])
       (Some (resolve env (cwd env) d)) (Some d))
  = (Ret tt, st2) ->
  updatePackageJson env (resolve env (cwd env) d) name st2 = (Ret tt, st3) ->
  npm_install env (st_fs st3) (resolve env (cwd env) d) = (root4, Some 0%Z) ->
  run env st
  = (0%Z,
     mkState root4
       (st_trace st3
        ++ [Print MsgInstalling; Spawn (resolve env (cwd env) d);
            Print MsgInstalled; Print MsgDone; Print (MsgCd d);
            Print MsgNpmRunDev; Print MsgNpmRunBuild])
       (var_destDir st3) (var_finalDirName st3)).
Proof.
  intros Hargv Hname Hconfirm Hdir Hex Hcopy Hpatch Hnpm.
  run_main. rewrite Hargv. state_simpl. rewrite Hname, Hconfirm.
  state_simpl. cbn [packageName installDeps]. rewrite Hdir. state_simpl.
  rewrite Hex. state_simpl.
  rewrite <- !app_assoc. cbn [app]. rewrite Hcopy, Hpatch.
  assert (Hinst : installDependencies env (resolve env (cwd env) d) st3
            = (Ret tt,
               mkState root4
                 (st_trace st3
                  ++ [Print MsgInstalling; Spawn (resolve env (cwd env) d);
                      Print MsgInstalled])
                 (var_destDir st3) (var_finalDirName st3))).
  { run_step. rewrite Hnpm. state_simpl. rewrite <- !app_assoc. reflexivity. }
  rewrite Hinst. rewrite printCompletion_returns. state_simpl.
  rewrite <- !app_assoc. reflexivity.
Qed.

(** X20: when the template holds a [package.json] that parses as an object,
    the copy and the write do not fail and the user declined the
    installation, the process ends with code 0 and the destination is the
    template with the manifest's name set: [package.json] holds the
    2-space serialization of the renamed object, and every other file below
    the destination reads as in the template. *)
Theorem run_scaffolds_template st name d tree root1 text fields :
  falsy (argv2 env) = false ->
  ask_name isValidPackageName
    (toValidPackageName (unicode_lower env) (default [] (argv2 env)))
    (name_replies env) = Some name ->
  ask_confirm true (confirm_reply env) = Some false ->
  packageNameToDirName name = Some d ->
  existsSync (st_fs st) (resolve env (cwd env) d) = false ->
  copy_result env = CopyDone ->
  lookup_path (st_fs st) (join (install_dir env) (js "template")) = Some tree ->
  put_path true (st_fs st) (resolve env (cwd env) d) tree = Some root1 ->
  read_file tree [js "package.json"] = Some text ->
  JSON_parse env text = Some (JObj fields) ->
  write_result env = WriteDone ->
  (run env st).1 = 0%Z
  /\ read_file (st_fs (run env st).2)
       (resolve env (cwd env) d ++ [js "package.json"])
     = Some (JSON_stringify env
               (JObj (set_prop (js "name") (JStr name) fields)) 2)
  /\ forall q, q <> [js "package.json"] ->
       read_file (st_fs (run env st).2) (resolve env (cwd env) d ++ q)
       = read_file tree q.
Proof.
  intros Hargv Hname Hconfirm Hdir Hex Hcr Htree Hput Hread Hparse Hwr.
  set (dest := resolve env (cwd env) d) in *.
  assert (Habsent : lookup_path (st_fs st) dest = None)
    by (apply existsSync_false, Hex).
  pose proof (copyTemplate_done env _ dest
                (mkState (st_fs st)
                   (st_trace st
                    ++ [Print MsgWelcome;
                        Prompt (toValidPackageName (unicode_lower env)
                                  (default [] (argv2 env)))])
                   (Some dest) (Some d))
                tree root1 Hcr Htree Habsent Hput) as Hcopy.
  state_simpl_in Hcopy.
  assert (Hbelow : forall q, read_file root1 (dest ++ q) = read_file tree q).
  { intros q. unfold read_file.
    rewrite (put_path_lookup _ _ _ _ _ Hput q). reflexivity. }
  match type of Hcopy with _ = (_, ?s2) => set (st2 := s2) in * end.
  assert (Hread2 : read_file (st_fs st2) (join dest (js "package.json"))
                   = Some text)
    by (unfold join; subst st2; state_simpl; rewrite Hbelow; exact Hread).
  destruct (updatePackageJson_done env dest name st2 text fields
              Hread2 Hparse Hwr) as (root' & Hpatch & Hfile & Hother & _).
  assert (Hrun : run env st
            = (0%Z,
               mkState root'
                 ((st_trace st2
                   ++ [ReadJSON (join dest (js "package.json"));
                       WriteJSON (join dest (js "package.json")) 2])
                  ++ [Print MsgDone; Print (MsgCd d); Print MsgNpmInstall;
                      Print MsgNpmRunDev; Print MsgNpmRunBuild])
                 (var_destDir st2) (var_finalDirName st2))).
  { run_main. rewrite Hargv. state_simpl. rewrite Hname, Hconfirm.
    state_simpl. cbn [packageName installDeps]. rewrite Hdir. state_simpl.
    fold dest. rewrite Hex. state_simpl.
    rewrite <- !app_assoc. cbn [app]. rewrite Hcopy, Hpatch.
    state_simpl. rewrite printCompletion_returns. state_simpl.
    rewrite <- !app_assoc. reflexivity. }
  rewrite Hrun.
  cbn [fst snd st_fs]. split; [reflexivity|]. split; [exact Hfile|].
  intros q Hq. rewrite Hother.
  - subst st2. state_simpl. apply Hbelow.
  - unfold join. intros E. apply app_inv_head in E. contradiction.
Qed.

(** X21: when the manifest is missing, is not JSON, or holds [null] or a
    primitive value, [updatePackageJson] throws after the read: nothing is
    written and the file system is as it was. *)
Theorem updatePackageJson_bad_manifest destDir projectName st :
  match read_file (st_fs st) (join destDir (js "package.json")) with
  | Some text =>
      match JSON_parse env text with
      | Some (JObj _) | Some (JArr _) => False
      | _ => True
      end
  | None => True
  end ->
  exists e,
    updatePackageJson env destDir projectName st
    = (Throw e,
       mkState (st_fs st)
         (st_trace st ++ [ReadJSON (join destDir (js "package.json"))])
         (var_destDir st) (var_finalDirName st)).
Proof.
  run_step.
  destruct (read_file (st_fs st) (join destDir (js "package.json")))
    as [text|]; [|state_simpl; eauto].
  destruct (JSON_parse env text) as [[]|]; state_simpl; intros H;
    solve [eauto | destruct H].
Qed.

(** X23: with an installer that leaves an entry alone, a run leaves it
    alone too when it is neither above nor below the destination: the tool
    itself writes and removes only at the destination. *)
Theorem run_touches_only_destination st name install d q :
  falsy (argv2 env) = false ->
  ask_name isValidPackageName
    (toValidPackageName (unicode_lower env) (default [] (argv2 env)))
    (name_replies env) = Some name ->
  ask_confirm true (confirm_reply env) = Some install ->
  packageNameToDirName name = Some d ->
  (forall root,
     lookup_path (npm_install env root (resolve env (cwd env) d)).1 q
     = lookup_path root q) ->
  ~ resolve env (cwd env) d `prefix_of` q ->
  ~ q `prefix_of` resolve env (cwd env) d ->
  lookup_path (st_fs (run env st).2) q = lookup_path (st_fs st) q.
Proof.
  intros Hargv Hname Hconfirm Hdir Hnpm Hq1 Hq2.
  set (dest := resolve env (cwd env) d) in *.
  run_main. rewrite Hargv. state_simpl. rewrite Hname, Hconfirm.
  state_simpl. cbn [packageName installDeps]. rewrite Hdir. state_simpl.
  fold dest. destruct (existsSync (st_fs st) dest); state_simpl;
    [reflexivity|].
  match goal with
  | |- context [copyTemplate env ?src dest ?s1] =>
      pose proof (copyTemplate_elsewhere src dest s1 q Hq1 Hq2) as Hf2;
      pose proof (copyTemplate_frame env src dest s1) as Hv2;
      destruct (copyTemplate env src dest s1) as [[[]|e|c] st2] eqn:Hcopy
  end; cbn [snd] in Hf2; state_simpl_in Hf2;
    specialize (Hv2 _ _ eq_refl); state_simpl_in Hv2;
    [|destruct (catch_block e st2) as (_ & _ & _ & H4);
      exact (eq_trans (H4 dest q Hv2 Hq1 Hq2) Hf2)
     |destruct (copyTemplate_no_exit _ _ _ _ _ Hcopy)].
  pose proof (updatePackageJson_elsewhere dest name st2 q Hq1 Hq2) as Hf3.
  pose proof (updatePackageJson_frame env dest name st2) as Hv3.
  destruct (updatePackageJson env dest name st2) as [[[]|e|c] st3] eqn:Hpatch;
    cbn [snd] in Hf3; rewrite Hf2 in Hf3;
    specialize (Hv3 _ _ eq_refl); rewrite Hv2 in Hv3;
    [|destruct (catch_block e st3) as (_ & _ & _ & H4);
      exact (eq_trans (H4 dest q Hv3 Hq1 Hq2) Hf3)
     |destruct (updatePackageJson_no_exit _ _ _ _ _ Hpatch)].
  destruct install.
  - pose proof (installDependencies_fs dest st3) as Hf4.
    rewrite <- Hf3, <- (Hnpm (st_fs st3)), <- Hf4.
    destruct (installDependencies env dest st3) as [[[]|e|c] st4] eqn:Hinst;
      cbn [snd].
    + rewrite printCompletion_returns. reflexivity.
    + destruct (installDependencies_frame _ _ _ _ Hinst) as [Hv4 _].
      rewrite Hv3 in Hv4.
      destruct (catch_block e st4) as (_ & _ & _ & H4).
      exact (H4 dest q Hv4 Hq1 Hq2).
    + destruct (installDependencies_frame _ _ _ _ Hinst) as [_ Hne].
      destruct (Hne c). reflexivity.
  - state_simpl. rewrite printCompletion_returns. exact Hf3.
Qed.

End FlowFacts.

Section NormalizedValid.

Variable ul : unicode_table.

Lemma lower_from_keeps_name_head before s :
  Exists (fun c => name_head c = true) s ->
  Exists (fun c => name_head c = true) (lower_from ul before s).
Proof.
  intros H. revert before.
  induction H as [c s Hc|c s _ IH]; intros before; simpl.
  - rewrite (name_head_ascii _ Hc). unfold ascii_lower.
    rewrite (name_head_not_upper _ Hc). constructor. exact Hc.
  - apply Exists_app. right. apply IH.
Qed.

Lemma toValidPackageName_keeps_name_head s :
  Exists (fun c => name_head c = true) s ->
  Exists (fun c => name_head c = true) (toValidPackageName ul s).
Proof.
  intros H. unfold toValidPackageName, replace_runs, toLowerCase.
  apply replace_runs_from_keeps; [apply name_head_kept|].
  apply strip_leading_keeps; [apply name_head_not_dot_underscore|].
  apply replace_runs_from_keeps; [apply name_head_not_space|].
  apply lower_from_keeps_name_head, trim_keeps;
    [apply name_head_not_space | exact H].
Qed.

(** X10: normalizing a name the validator accepts gives a name the
    validator accepts (not always the same name: a scope and dots are
    rewritten to dashes). *)
Theorem toValidPackageName_preserves_valid name :
  isValidPackageName name = true ->
  isValidPackageName (toValidPackageName ul name) = true.
Proof.
  intros H.
  apply name_head_string_valid; [|apply toValidPackageName_name_head].
  assert (Hex : Exists (fun c => name_head c = true) name).
  { apply isValidPackageName_grammar in H.
    destruct H as [(c & rest & -> & Hc & _)
                  |(sc & n & -> & _ & c & rest & -> & Hc & _)].
    - constructor. exact Hc.
    - apply Exists_cons_tl, Exists_app. right.
      apply Exists_cons_tl. constructor. exact Hc. }
  apply toValidPackageName_keeps_name_head in Hex.
  intros E. rewrite E in Hex. inversion Hex.
Qed.

End NormalizedValid.

Section ObjectOrder.

Variables (k : jsstring) (v : json).

(** X22: assigning a property keeps the order of the keys: an existing key
    stays where it is, a new key goes last; keys that were distinct stay
    distinct. *)
Theorem set_prop_keys fields :
  (set_prop k v fields).*1
  = (if decide (k ∈ fields.*1) then fields.*1 else fields.*1 ++ [k])
  /\ (NoDup fields.*1 -> NoDup (set_prop k v fields).*1).
Proof.
  assert (Hkeys : (set_prop k v fields).*1
            = if decide (k ∈ fields.*1) then fields.*1 else fields.*1 ++ [k]).
  { induction fields as [|[k' v'] rest IH]; [reflexivity|].
    cbn [set_prop]. destruct (decide (k' = k)) as [->|Hk];
      rewrite !fmap_cons; cbn [fst].
    - rewrite decide_True by (left). reflexivity.
    - rewrite IH. destruct (decide (k ∈ rest.*1)) as [Hin|Hin].
      + rewrite decide_True by (right; exact Hin). reflexivity.
      + rewrite decide_False; [reflexivity|].
        intros Hin'. apply elem_of_cons in Hin' as [E|E]; congruence. }
  split; [exact Hkeys|]. rewrite Hkeys. intros Hnd.
  destruct (decide (k ∈ fields.*1)) as [Hin|Hin]; [exact Hnd|].
  apply NoDup_app. split; [exact Hnd|]. split.
  - intros x Hx Hx'. apply list_elem_of_singleton in Hx'. subst x. exact (Hin Hx).
  - apply NoDup_singleton.
Qed.

End ObjectOrder.

Section FurtherRuns.

Lemma copyTemplate_copies_tree_witness :
  exists tree,
    lookup_path (st_fs Scenario.before_copy) [js "app"; js "template"]
    = Some tree
    /\ (forall q,
          lookup_path (st_fs (Scenario.after_copy Demo.env))
            (Scenario.dest ++ q)
          = lookup_path tree q)
    /\ (forall q, ~ Scenario.dest `prefix_of` q -> ~ q `prefix_of` Scenario.dest ->
          lookup_path (st_fs (Scenario.after_copy Demo.env)) q
          = lookup_path (st_fs Scenario.before_copy) q).
Proof.
  apply (copyTemplate_copies_tree Demo.env [js "app"; js "template"]
           Scenario.dest Scenario.before_copy (Scenario.after_copy Demo.env));
    vm_compute; reflexivity.
Defined.

Lemma askForOptions_valid_witness :
  isValidPackageName (packageName (mkOptions (js "my-cool-app") true)) = true
  /\ st_fs (mkState Demo.root [Prompt (js "my-cool-app")] None None)
     = st_fs (start Demo.root).
Proof.
  apply (askForOptions_valid Demo.env (js "My Cool App")).
  vm_compute. reflexivity.
Defined.

Lemma run_missing_argument_witness :
  run Scenario.no_argument (start Demo.root)
  = (1%Z, mkState Demo.root [Print MsgWelcome; Print MsgUsage] None None).
Proof.
  apply (run_missing_argument Scenario.no_argument (start Demo.root)).
  reflexivity.
Defined.

Lemma run_prompt_aborted_witness :
  run Scenario.interrupted (start Demo.root)
  = (1%Z,
     mkState Demo.root
       [Print MsgWelcome; Prompt (js "my-cool-app");
        Print (MsgFailed PromptAborted)]
       None None).
Proof.
  apply (run_prompt_aborted Scenario.interrupted (start Demo.root));
    [reflexivity | left; vm_compute; reflexivity].
Defined.

Lemma run_failure_cleans_up_witness :
  (run Scenario.copy_fails (start Demo.root)).1 = 0%Z
  \/ ((run Scenario.copy_fails (start Demo.root)).1 = 1%Z
      /\ forall q, Scenario.dest `prefix_of` q ->
           lookup_path (st_fs (run Scenario.copy_fails (start Demo.root)).2) q
           = None).
Proof.
  apply (run_failure_cleans_up Scenario.copy_fails (start Demo.root)
           (js "my-cool-app") true (js "my-cool-app"));
    vm_compute; reflexivity.
Defined.

Lemma run_success_without_install_witness :
  run Scenario.declined (start Demo.root)
  = (0%Z,
     mkState (st_fs (Scenario.after_patch Scenario.declined))
       (st_trace (Scenario.after_patch Scenario.declined)
        ++ [Print MsgDone; Print (MsgCd (js "my-cool-app"));
            Print MsgNpmInstall; Print MsgNpmRunDev; Print MsgNpmRunBuild])
       (var_destDir (Scenario.after_patch Scenario.declined))
       (var_finalDirName (Scenario.after_patch Scenario.declined))).
Proof.
  apply (run_success_without_install Scenario.declined (start Demo.root)
           (js "my-cool-app") (js "my-cool-app")
           (Scenario.after_copy Scenario.declined)
           (Scenario.after_patch Scenario.declined));
    vm_compute; reflexivity.
Defined.

Lemma run_success_with_install_witness :
  run Scenario.installed (start Demo.root)
  = (0%Z,
     mkState (st_fs (Scenario.after_patch Scenario.installed))
       (st_trace (Scenario.after_patch Scenario.installed)
        ++ [Print MsgInstalling; Spawn Scenario.dest; Print MsgInstalled;
            Print MsgDone; Print (MsgCd (js "my-cool-app"));
            Print MsgNpmRunDev; Print MsgNpmRunBuild])
       (var_destDir (Scenario.after_patch Scenario.installed))
       (var_finalDirName (Scenario.after_patch Scenario.installed))).
Proof.
  apply (run_success_with_install Scenario.installed (start Demo.root)
           (js "my-cool-app") (js "my-cool-app")
           (Scenario.after_copy Scenario.installed)
           (Scenario.after_patch Scenario.installed)
           (st_fs (Scenario.after_patch Scenario.installed)));
    vm_compute; reflexivity.
Defined.

Lemma run_scaffolds_template_witness :
  (run Scenario.declined (start Demo.root)).1 = 0%Z
  /\ read_file (st_fs (run Scenario.declined (start Demo.root)).2)
       (Scenario.dest ++ [js "package.json"])
     = Some (Demo.stringify
               (JObj (set_prop (js "name") (JStr (js "my-cool-app"))
                        [(js "name", JStr (js "template"));
                         (js "version", JStr (js "1.0.0"))])) 2)
  /\ forall q, q <> [js "package.json"] ->
       read_file (st_fs (run Scenario.declined (start Demo.root)).2)
         (Scenario.dest ++ q)
       = read_file Demo.template q.
Proof.
  apply (run_scaffolds_template Scenario.declined (start Demo.root)
           (js "my-cool-app") (js "my-cool-app") Demo.template
           (st_fs (Scenario.after_copy Scenario.declined))
           Demo.manifest_text);
    vm_compute; reflexivity.
Defined.

Lemma updatePackageJson_bad_manifest_witness :
  exists e,
    updatePackageJson Demo.env [js "work"] (js "widget") (start Demo.root)
    = (Throw e,
       mkState Demo.root [ReadJSON [js "work"; js "package.json"]] None None).
Proof.
  apply (updatePackageJson_bad_manifest Demo.env [js "work"] (js "widget")
           (start Demo.root)).
  vm_compute. exact I.
Defined.

Lemma set_prop_keys_witness :
  NoDup (set_prop (js "name") (JStr (js "widget"))
           [(js "version", JStr (js "1.0.0"))]).*1.
Proof.
  apply (proj2 (set_prop_keys (js "name") (JStr (js "widget"))
                  [(js "version", JStr (js "1.0.0"))])).
  apply NoDup_singleton.
Defined.

Lemma run_touches_only_destination_witness :
  lookup_path (st_fs (run Demo.env (start Demo.root)).2)
    [js "app"; js "template"; js "package.json"]
  = lookup_path (st_fs (start Demo.root))
      [js "app"; js "template"; js "package.json"].
Proof.
  apply (run_touches_only_destination Demo.env (start Demo.root)
           (js "my-cool-app") true (js "my-cool-app"));
    try (vm_compute; reflexivity);
    try (intros [k E]; discriminate E).
Defined.

Lemma toValidPackageName_preserves_valid_witness :
  isValidPackageName (toValidPackageName Demo.ul_id (js "@acme/my.widget"))
  = true.
Proof. apply toValidPackageName_preserves_valid. reflexivity. Defined.

End FurtherRuns.
